(** * avg: cumulative and simple moving averages over a stream of samples

    A shallow embedding of [avg.c].  The C [double] is IEEE-754 binary64,
    taken from the Standard Library's executable specification of
    floating-point numbers ([SpecFloat]); the C [long] is a 64-bit
    two's-complement integer kept in [Z] with its wrap-around written out.
    Functions that receive a pointer to a struct are state transformers in a
    small state monad; [main]'s reading loops carry a fuel argument, one unit
    per evaluation of the loop condition. *)

From Stdlib Require Import ZArith Lia Bool Ascii String List.
From Stdlib Require Import Floats.SpecFloat.
Import ListNotations.
Local Open Scope Z_scope.

(** ** The C scalar types *)

Module Long.

Definition LONG_MAX : Z := 2 ^ 63 - 1.
Definition LONG_MIN : Z := - 2 ^ 63.

(** Reduction of an integer to the 64-bit two's-complement range. *)
Definition wrap (z : Z) : Z := (z + 2 ^ 63) mod 2 ^ 64 - 2 ^ 63.

(** [count++] *)
Definition incr (z : Z) : Z := wrap (z + 1).

End Long.

Module Double.

Definition prec : Z := 53.
Definition emax : Z := 1024.

Definition double : Type := spec_float.

Definition valid (x : double) : bool := valid_binary prec emax x.

(** The literal [0], converted to [double]. *)
Definition zero : double := S754_zero false.

(** [x + y] and [x / y], rounded to nearest, ties to even. *)
Definition add : double -> double -> double := SFadd prec emax.
Definition div : double -> double -> double := SFdiv prec emax.

(** The conversion of a [long] to [double], as in [total / count]. *)
Definition of_long (z : Z) : double := binary_normalize prec emax z 0 false.

(** The double [m * 2 ^ e], for writing constants such as [3.5]. *)
Definition dyadic (m e : Z) : double := binary_normalize prec emax m e false.

Definition is_nan (x : double) : bool :=
  match x with S754_nan => true | _ => false end.

(** The C comparison [x == y]: false on NaN, and [-0.0 == 0.0]. *)
Definition eqb : double -> double -> bool := SFeqb.

(** The same number: equal under [==], or both NaN. *)
Definition same (x y : double) : bool := eqb x y || (is_nan x && is_nan y).

End Double.

Abbreviation double := Double.double.

(** ** A state monad for the functions that take [struct ... *s] *)

Definition State (S A : Type) : Type := S -> A * S.

Definition ret {S A} (a : A) : State S A := fun s => (a, s).

Definition bind {S A B} (m : State S A) (k : A -> State S B) : State S B :=
  fun s => let (a, s') := m s in k a s'.

Definition get {S} : State S S := fun s => (s, s).

Definition modify {S} (f : S -> S) : State S unit := fun s => (tt, f s).

Notation "x <- m ;; k" := (bind m (fun x => k))
  (at level 61, m at next level, right associativity).
Notation "m ;; k" := (bind m (fun _ => k))
  (at level 61, right associativity).

(** ** The cumulative average *)

Record cumulative_average_t : Type := mk_cumulative_average {
  average : double;
  total : double;
  count : Z
}.

Definition set_total (v : double) (s : cumulative_average_t) :=
  mk_cumulative_average (average s) v (count s).
Definition set_count (v : Z) (s : cumulative_average_t) :=
  mk_cumulative_average (average s) (total s) v.
Definition set_average (v : double) (s : cumulative_average_t) :=
  mk_cumulative_average v (total s) (count s).

Definition cumulative_average (x : double) : State cumulative_average_t double :=
  modify (fun s => set_total (Double.add (total s) x) s) ;;
  modify (fun s => set_count (Long.incr (count s)) s) ;;
  modify (fun s => set_average (Double.div (total s) (Double.of_long (count s))) s) ;;
  s <- get ;;
  ret (average s).

Definition cma : State cumulative_average_t double :=
  s <- get ;;
  ret (average s).

(** [s->total = s->count = s->average = 0]: the assignments run right to
    left, each field receiving zero in its own type. *)
Definition cma_reset : State cumulative_average_t unit :=
  modify (set_average Double.zero) ;;
  modify (set_count 0) ;;
  modify (set_total Double.zero).

(** ** The simple moving average *)

Record simple_moving_average_t : Type := mk_simple_moving_average {
  current_window : cumulative_average_t;
  simple_average : cumulative_average_t;
  window : Z
}.

(** [&s->current_window] and [&s->simple_average]: run a transformer of the
    member inside the enclosing struct. *)
Definition at_current_window {A} (m : State cumulative_average_t A)
  : State simple_moving_average_t A :=
  fun s => let (a, c) := m (current_window s) in
           (a, mk_simple_moving_average c (simple_average s) (window s)).

Definition at_simple_average {A} (m : State cumulative_average_t A)
  : State simple_moving_average_t A :=
  fun s => let (a, c) := m (simple_average s) in
           (a, mk_simple_moving_average (current_window s) c (window s)).

Definition simple_moving_average (x : double) : State simple_moving_average_t double :=
  at_current_window (cumulative_average x) ;;
  s <- get ;;
  (if count (current_window s) =? window s
   then
     w <- at_current_window cma ;;
     at_simple_average (cumulative_average w) ;;
     at_current_window cma_reset
   else ret tt) ;;
  at_simple_average cma.

Definition sma : State simple_moving_average_t double :=
  at_simple_average cma.

Definition sma_reset (window : Z) : State simple_moving_average_t unit :=
  at_current_window cma_reset ;;
  at_simple_average cma_reset ;;
  modify (fun s => mk_simple_moving_average (current_window s) (simple_average s) window).

(** ** Runtime modes and flags *)

Inductive runtime_mode_t : Type :=
| UNKNOWN_RUNTIME_MODE
| CUMULATIVE_AVERAGE
| SIMPLE_MOVING_AVERAGE.

Record runtime_modes_t : Type := mk_runtime_modes {
  mode : option string;
  id : runtime_mode_t
}.

Definition runtime_modes : list runtime_modes_t :=
  [ mk_runtime_modes (Some "CMA"%string) CUMULATIVE_AVERAGE
  ; mk_runtime_modes (Some "SMA"%string) SIMPLE_MOVING_AVERAGE
  ; mk_runtime_modes None UNKNOWN_RUNTIME_MODE ].

Fixpoint lookup_in (table : list runtime_modes_t) (s : string) : runtime_mode_t :=
  match table with
  | [] => UNKNOWN_RUNTIME_MODE
  | e :: table' =>
    match mode e with
    | Some m => if String.eqb m s then id e else lookup_in table' s
    | None => lookup_in table' s
    end
  end.

Definition lookup_runtime_mode (s : string) : runtime_mode_t :=
  lookup_in runtime_modes s.

Record runtime_flags_t : Type := mk_runtime_flags {
  data_filename : option string;
  program_name : string;
  runtime_mode : runtime_mode_t;
  show_intermediates : Z;
  window_size : Z
}.

Definition EXIT_SUCCESS : Z := 0.
Definition EXIT_FAILURE : Z := 1.

Definition SHOW_HELP : Ascii.ascii := "h"%char.
Definition SHOW_INTERMEDIATES : Ascii.ascii := "I"%char.
Definition SHOW_VERSION : Ascii.ascii := "V"%char.
Definition SET_MODE : Ascii.ascii := "m"%char.
Definition SET_WINDOW_SIZE : Ascii.ascii := "W"%char.

Section Driver.

(** The C library's [atol], applied to the argument of [-W]. *)
Variable atol : string -> Z.

(** [parse_argv]: the option loop runs over the successive results of
    [getopt_long], each an option character with its [optarg]; [operands]
    are the arguments left from [optind] on.  [inl status] is a call of
    [exit]; the usage and version texts are not part of the model. *)
Fixpoint parse_options (f : runtime_flags_t) (opts : list (Ascii.ascii * string))
  : Z + runtime_flags_t :=
  match opts with
  | [] => inr f
  | (code, optarg) :: opts' =>
    if Ascii.eqb code SET_MODE then
      let m := lookup_runtime_mode optarg in
      match m with
      | UNKNOWN_RUNTIME_MODE => inl EXIT_FAILURE
      | _ =>
        parse_options
          (mk_runtime_flags (data_filename f) (program_name f) m
             (show_intermediates f) (window_size f)) opts'
      end
    else if Ascii.eqb code SET_WINDOW_SIZE then
      parse_options
        (mk_runtime_flags (data_filename f) (program_name f) (runtime_mode f)
           (show_intermediates f) (atol optarg)) opts'
    else if Ascii.eqb code SHOW_HELP then inl EXIT_SUCCESS
    else if Ascii.eqb code SHOW_INTERMEDIATES then
      parse_options
        (mk_runtime_flags (data_filename f) (program_name f) (runtime_mode f)
           1 (window_size f)) opts'
    else if Ascii.eqb code SHOW_VERSION then inl EXIT_SUCCESS
    else inl EXIT_FAILURE
  end.

Definition parse_argv (f : runtime_flags_t) (opts : list (Ascii.ascii * string))
  (operands : list string) : Z + runtime_flags_t :=
  match parse_options f opts with
  | inl status => inl status
  | inr f =>
    match operands with
    | [name] =>
      inr (mk_runtime_flags (Some name) (program_name f) (runtime_mode f)
             (show_intermediates f) (window_size f))
    | _ => inr f
    end
  end.

(** ** The input stream and [fscanf(in, "%lf", &x)]

    The stream is taken after tokenisation: [Num v] is a well-formed
    floating-point token that converts to [v]; [Bad] is a token, such as
    [abc], whose first character cannot begin a floating-point number. *)
Inductive token : Type :=
| Num (v : double)
| Bad.

Definition EOF : Z := -1.

(** The result is the return value, the rest of the stream and the content
    of [x].  At the end of the stream the call reports [EOF].  A well-formed
    token is consumed and assigned, and the call reports one assignment.  A
    malformed token is a matching failure: its first character is pushed
    back, nothing is assigned and the call reports zero assignments. *)
Definition fscanf_lf (inp : list token) (x : double) : Z * list token * double :=
  match inp with
  | [] => (EOF, [], x)
  | Num v :: rest => (1, rest, v)
  | Bad :: _ => (0, inp, x)
  end.

(** ** [main] *)

(** What a reading loop leaves behind: the variables it ran on and the
    lines printed, or, when the fuel ran out inside the loop, the lines
    printed so far. *)
Inductive loop_result (S : Type) : Type :=
| Finished (state : S) (out : list double)
| Unfinished (out : list double).
#[global] Arguments Finished {S} state out.
#[global] Arguments Unfinished {S} out.

(** Lines 250-251. Each printed line is recorded as the [double] it shows. *)
Fixpoint cma_loop_show (fuel : nat) (inp : list token) (x : double)
  (state : cumulative_average_t) (out : list double)
  : loop_result cumulative_average_t :=
  match fuel with
  | O => Unfinished out
  | S fuel' =>
    let '(r, inp', x') := fscanf_lf inp x in
    if negb (r =? EOF) then
      let (a, state') := cumulative_average x' state in
      cma_loop_show fuel' inp' x' state' (out ++ [a])
    else Finished state out
  end.

(** Lines 255-256. *)
Fixpoint cma_loop (fuel : nat) (inp : list token) (x : double)
  (state : cumulative_average_t) (out : list double)
  : loop_result cumulative_average_t :=
  match fuel with
  | O => Unfinished out
  | S fuel' =>
    let '(r, inp', x') := fscanf_lf inp x in
    if negb (r =? EOF) then
      let (_, state') := cumulative_average x' state in
      cma_loop fuel' inp' x' state' out
    else Finished state out
  end.

(** The body of the loop of lines 269-279, on the loop's variables: the
    driver's [count], the averager and the lines printed. *)
Definition sma_body (f : runtime_flags_t) (x : double)
  (v : Z * simple_moving_average_t * list double)
  : Z * simple_moving_average_t * list double :=
  let '(counter, state, out) := v in
  let counter := Long.incr counter in
  let (_, state) := simple_moving_average x state in
  if counter =? window_size f then
    let counter := 0 in
    if negb (show_intermediates f =? 0)
    then (counter, state, out ++ [fst (sma state)])
    else (counter, state, out)
  else (counter, state, out).

Fixpoint sma_loop (f : runtime_flags_t) (fuel : nat) (inp : list token) (x : double)
  (v : Z * simple_moving_average_t * list double)
  : loop_result (Z * simple_moving_average_t) :=
  match fuel with
  | O => Unfinished (snd v)
  | S fuel' =>
    let '(r, inp', x') := fscanf_lf inp x in
    if negb (r =? EOF) then sma_loop f fuel' inp' x' (sma_body f x' v)
    else Finished (fst v) (snd v)
  end.

(** The content of [main]'s automatic variables before they are assigned. *)
Record locals : Type := mk_locals {
  cma_state : cumulative_average_t;
  sma_state : simple_moving_average_t;
  x_init : double
}.

(** The end of the process: the exit status with the lines written to
    standard output, or, when the fuel ran out, the lines written so far. *)
Inductive outcome : Type :=
| Exit (status : Z) (out : list double)
| Running (out : list double).

(** The [switch] of lines 240-289, for flags already parsed and the input
    stream [inp] already opened. *)
Definition run_mode (f : runtime_flags_t) (inp : list token) (l : locals)
  (fuel : nat) : outcome :=
  match runtime_mode f with
  | CUMULATIVE_AVERAGE =>
    let state := snd (cma_reset (cma_state l)) in
    if negb (show_intermediates f =? 0) then
      match cma_loop_show fuel inp (x_init l) state [] with
      | Finished _ out => Exit 0 out
      | Unfinished out => Running out
      end
    else
      match cma_loop fuel inp (x_init l) state [] with
      | Finished state out => Exit 0 (out ++ [fst (cma state)])
      | Unfinished out => Running out
      end
  | SIMPLE_MOVING_AVERAGE =>
    let state := snd (sma_reset (window_size f) (sma_state l)) in
    match sma_loop f fuel inp (x_init l) (0, state, []) with
    | Finished (_, state) out =>
      if negb (negb (show_intermediates f =? 0)) then Exit 0 (out ++ [fst (sma state)])
      else Exit 0 out
    | Unfinished out => Running out
    end
  | UNKNOWN_RUNTIME_MODE => Exit EXIT_FAILURE []
  end.

Definition main (opts : list (Ascii.ascii * string)) (operands : list string)
  (inp : list token) (l : locals) (fuel : nat) : outcome :=
  let runtime_flags :=
    mk_runtime_flags None "avg"%string CUMULATIVE_AVERAGE 0 10 in
  match parse_argv runtime_flags opts operands with
  | inl status => Exit status []
  | inr runtime_flags => run_mode runtime_flags inp l fuel
  end.

End Driver.

(** * Verification *)

(** ** Unfolding the state transformers *)

Definition cma0 : cumulative_average_t :=
  mk_cumulative_average Double.zero Double.zero 0.

Definition cma_step (s : cumulative_average_t) (x : double) : cumulative_average_t :=
  snd (cumulative_average x s).

Definition sma_step (s : simple_moving_average_t) (x : double) : simple_moving_average_t :=
  snd (simple_moving_average x s).

(** The averager after the samples [xs], fed in order. *)
Definition cma_run (s : cumulative_average_t) (xs : list double) : cumulative_average_t :=
  fold_left cma_step xs s.

Definition sma_run (s : simple_moving_average_t) (xs : list double) : simple_moving_average_t :=
  fold_left sma_step xs s.

(** The sum and the mean of a list of samples, computed as the C code
    computes them: the sum accumulated from [0] in the order of the list,
    the mean as that sum divided by the converted length. *)
Definition fsum (xs : list double) : double := fold_left Double.add xs Double.zero.

Definition mean (xs : list double) : double :=
  Double.div (fsum xs) (Double.of_long (Z.of_nat (length xs))).

(** The values returned by the successive calls of [cumulative_average]. *)
Fixpoint cma_trace (s : cumulative_average_t) (xs : list double) : list double :=
  match xs with
  | [] => []
  | x :: xs' => let (a, s') := cumulative_average x s in a :: cma_trace s' xs'
  end.

(** The variables of the moving-average loop after the samples [xs]. *)
Definition sma_drive (f : runtime_flags_t)
  (v : Z * simple_moving_average_t * list double) (xs : list double)
  : Z * simple_moving_average_t * list double :=
  fold_left (fun v x => sma_body f x v) xs v.

(** The operations of a cumulative averager, and a sequence of them. *)
Inductive cma_op : Type :=
| op_update (x : double)
| op_reset.

Definition cma_apply (s : cumulative_average_t) (o : cma_op) : cumulative_average_t :=
  match o with
  | op_update x => snd (cumulative_average x s)
  | op_reset => snd (cma_reset s)
  end.

Definition cma_exec (s : cumulative_average_t) (ops : list cma_op) : cumulative_average_t :=
  fold_left cma_apply ops s.

(** The samples fed to a cumulative averager since it was last reset. *)
Definition since_reset (ops : list cma_op) : list double :=
  fold_left (fun acc o => match o with
                          | op_update x => acc ++ [x]
                          | op_reset => []
                          end) ops [].


(** What one result of [getopt_long] does to the option loop of
    [parse_argv]: [Some status] when its case calls [exit], [None] when the
    loop goes on. *)
Definition stops (o : Ascii.ascii * string) : option Z :=
  let (code, optarg) := o in
  if Ascii.eqb code SET_MODE then
    match lookup_runtime_mode optarg with
    | UNKNOWN_RUNTIME_MODE => Some EXIT_FAILURE
    | _ => None
    end
  else if Ascii.eqb code SET_WINDOW_SIZE then None
  else if Ascii.eqb code SHOW_HELP then Some EXIT_SUCCESS
  else if Ascii.eqb code SHOW_INTERMEDIATES then None
  else if Ascii.eqb code SHOW_VERSION then Some EXIT_SUCCESS
  else Some EXIT_FAILURE.

Definition goes_on (o : Ascii.ascii * string) : bool :=
  match stops o with None => true | Some _ => false end.

(** The argument of the last occurrence of the option [code]. *)
Fixpoint last_arg (code : Ascii.ascii) (opts : list (Ascii.ascii * string))
  : option string :=
  match opts with
  | [] => None
  | (c, a) :: opts' =>
    match last_arg code opts' with
    | Some b => Some b
    | None => if Ascii.eqb c code then Some a else None
    end
  end.

(** The flags that a scan of options leaves, none of which stops the loop:
    the last [-m] and the last [-W] win, any [-I] sets the flag. *)
Definition flags_after (atol : string -> Z) (f : runtime_flags_t)
  (opts : list (Ascii.ascii * string)) : runtime_flags_t :=
  mk_runtime_flags (data_filename f) (program_name f)
    (match last_arg SET_MODE opts with
     | Some a => lookup_runtime_mode a
     | None => runtime_mode f
     end)
    (if existsb (fun o => Ascii.eqb (fst o) SHOW_INTERMEDIATES) opts
     then 1 else show_intermediates f)
    (match last_arg SET_WINDOW_SIZE opts with
     | Some a => atol a
     | None => window_size f
     end).

(** The file named on the command line: the operand, when there is exactly
    one. *)
Definition with_operands (f : runtime_flags_t) (operands : list string)
  : runtime_flags_t :=
  match operands with
  | [name] =>
    mk_runtime_flags (Some name) (program_name f) (runtime_mode f)
      (show_intermediates f) (window_size f)
  | _ => f
  end.

Arguments cma_step : simpl never.
Arguments sma_step : simpl never.
Arguments cma_run : simpl never.
Arguments sma_run : simpl never.
Arguments fsum : simpl never.
Arguments mean : simpl never.

Ltac run_state :=
  unfold cumulative_average, cma, cma_reset, simple_moving_average, sma, sma_reset,
    at_current_window, at_simple_average, bind, ret, get, modify,
    set_total, set_count, set_average; simpl.

Lemma cumulative_average_eq (x : double) (s : cumulative_average_t) :
  cumulative_average x s =
  let t := Double.add (total s) x in
  let c := Long.incr (count s) in
  let a := Double.div t (Double.of_long c) in
  (a, mk_cumulative_average a t c).
Proof. reflexivity. Qed.

Lemma cma_reset_eq (s : cumulative_average_t) : cma_reset s = (tt, cma0).
Proof. reflexivity. Qed.

Lemma cma_eq (s : cumulative_average_t) : cma s = (average s, s).
Proof. reflexivity. Qed.

Lemma sma_eq (s : simple_moving_average_t) :
  sma s = (average (simple_average s), s).
Proof. destruct s; reflexivity. Qed.

Lemma sma_reset_eq (w : Z) (s : simple_moving_average_t) :
  sma_reset w s = (tt, mk_simple_moving_average cma0 cma0 w).
Proof. reflexivity. Qed.

Lemma simple_moving_average_eq (x : double) (s : simple_moving_average_t) :
  simple_moving_average x s =
  let c := cma_step (current_window s) x in
  if count c =? window s
  then let a := cma_step (simple_average s) (average c) in
       (average a, mk_simple_moving_average cma0 a (window s))
  else (average (simple_average s),
        mk_simple_moving_average c (simple_average s) (window s)).
Proof.
  run_state. unfold cma_step. rewrite cumulative_average_eq. simpl.
  destruct (Long.incr (count (current_window s)) =? window s); reflexivity.
Qed.

Lemma cma_step_eq (s : cumulative_average_t) (x : double) :
  cma_step s x =
  mk_cumulative_average
    (Double.div (Double.add (total s) x) (Double.of_long (Long.incr (count s))))
    (Double.add (total s) x) (Long.incr (count s)).
Proof. reflexivity. Qed.

Lemma sma_step_eq (s : simple_moving_average_t) (x : double) :
  sma_step s x =
  let c := cma_step (current_window s) x in
  if count c =? window s
  then mk_simple_moving_average cma0 (cma_step (simple_average s) (average c)) (window s)
  else mk_simple_moving_average c (simple_average s) (window s).
Proof.
  unfold sma_step. rewrite simple_moving_average_eq. cbv zeta.
  destruct (count (cma_step (current_window s) x) =? window s); reflexivity.
Qed.

Lemma window_sma_step (s : simple_moving_average_t) (x : double) :
  window (sma_step s x) = window s.
Proof.
  rewrite sma_step_eq. cbv zeta.
  destruct (count (cma_step (current_window s) x) =? window s); reflexivity.
Qed.

Lemma cma_run_snoc (s : cumulative_average_t) (xs : list double) (x : double) :
  cma_run s (xs ++ [x]) = cma_step (cma_run s xs) x.
Proof. unfold cma_run. rewrite fold_left_app. reflexivity. Qed.

Lemma sma_run_snoc (s : simple_moving_average_t) (xs : list double) (x : double) :
  sma_run s (xs ++ [x]) = sma_step (sma_run s xs) x.
Proof. unfold sma_run. rewrite fold_left_app. reflexivity. Qed.

Lemma sma_run_app (s : simple_moving_average_t) (xs ys : list double) :
  sma_run s (xs ++ ys) = sma_run (sma_run s xs) ys.
Proof. unfold sma_run. apply fold_left_app. Qed.

(** ** The counter *)

Lemma wrap_in_range (z : Z) :
  Long.LONG_MIN <= z <= Long.LONG_MAX -> Long.wrap z = z.
Proof.
  unfold Long.LONG_MIN, Long.LONG_MAX, Long.wrap.
  change (2 ^ 63) with 9223372036854775808.
  change (2 ^ 64) with 18446744073709551616.
  intros H. rewrite Z.mod_small; lia.
Qed.

Lemma incr_in_range (z : Z) :
  Long.LONG_MIN <= z < Long.LONG_MAX -> Long.incr z = z + 1.
Proof. intros H. unfold Long.incr. apply wrap_in_range. lia. Qed.

Lemma incr_neq (z : Z) : Long.incr z <> z.
Proof.
  unfold Long.incr, Long.wrap.
  change (2 ^ 63) with 9223372036854775808.
  change (2 ^ 64) with 18446744073709551616.
  intros H.
  pose proof (Z.div_mod (z + 1 + 9223372036854775808) 18446744073709551616) as D.
  lia.
Qed.

Lemma LONG_MIN_neg : Long.LONG_MIN < 0.
Proof. reflexivity. Qed.

(** ** The cumulative averager *)

Lemma count_cma_run (s : cumulative_average_t) (xs : list double) :
  0 <= count s ->
  count s + Z.of_nat (length xs) <= Long.LONG_MAX ->
  count (cma_run s xs) = count s + Z.of_nat (length xs).
Proof.
  induction xs as [|x xs IH] using rev_ind; intros H0 H.
  - unfold cma_run. simpl. lia.
  - rewrite length_app in H. simpl in H.
    rewrite cma_run_snoc, cma_step_eq. simpl.
    rewrite IH by lia. rewrite length_app. simpl.
    rewrite incr_in_range; [lia|]. pose proof LONG_MIN_neg. lia.
Qed.

Lemma total_cma_run (s : cumulative_average_t) (xs : list double) :
  total (cma_run s xs) = fold_left Double.add xs (total s).
Proof.
  induction xs as [|x xs IH] using rev_ind.
  - reflexivity.
  - rewrite cma_run_snoc, cma_step_eq, fold_left_app. simpl. now rewrite IH.
Qed.

Lemma average_cma_step (s : cumulative_average_t) (x : double) :
  average (cma_step s x) =
  Double.div (total (cma_step s x)) (Double.of_long (count (cma_step s x))).
Proof. reflexivity. Qed.

Lemma average_cma_run (xs : list double) :
  xs <> [] ->
  Z.of_nat (length xs) <= Long.LONG_MAX ->
  average (cma_run cma0 xs) = mean xs.
Proof.
  destruct xs as [|x xs _] using rev_ind; [congruence|]. intros _ H.
  rewrite cma_run_snoc, average_cma_step, <- cma_run_snoc.
  rewrite total_cma_run, count_cma_run; simpl; try lia. reflexivity.
Qed.

Lemma cma_run_cma0 (xs : list double) :
  Z.of_nat (length xs) <= Long.LONG_MAX ->
  cma_run cma0 xs =
  mk_cumulative_average
    (match xs with [] => Double.zero | _ => mean xs end)
    (fsum xs) (Z.of_nat (length xs)).
Proof.
  intros H.
  assert (E : cma_run cma0 xs =
              mk_cumulative_average (average (cma_run cma0 xs))
                (total (cma_run cma0 xs)) (count (cma_run cma0 xs)))
    by (destruct (cma_run cma0 xs); reflexivity).
  rewrite E, total_cma_run, count_cma_run by (simpl; lia). simpl.
  f_equal. destruct xs as [|x xs]; [reflexivity|].
  apply average_cma_run; [discriminate | exact H].
Qed.

Lemma nth_cma_trace (xs : list double) :
  forall (s : cumulative_average_t) (k : nat),
  (k < length xs)%nat ->
  nth_error (cma_trace s xs) k = Some (average (cma_run s (firstn (S k) xs))).
Proof.
  induction xs as [|x xs IH]; intros s k Hk; simpl in Hk; [lia|].
  destruct k as [|k].
  - reflexivity.
  - change (nth_error (cma_trace (cma_step s x) xs) k =
            Some (average (cma_run (cma_step s x) (firstn (S k) xs)))).
    apply IH. lia.
Qed.

Lemma length_cma_trace (xs : list double) :
  forall s : cumulative_average_t, length (cma_trace s xs) = length xs.
Proof.
  induction xs as [|x xs IH]; intros s; [reflexivity|].
  change (S (length (cma_trace (cma_step s x) xs)) = S (length xs)).
  now rewrite IH.
Qed.

(** ** The reading loops on well-formed input *)

Lemma cma_loop_num (xs : list double) :
  forall (fuel : nat) (x : double) (s : cumulative_average_t) (out : list double),
  (length xs < fuel)%nat ->
  cma_loop fuel (map Num xs) x s out = Finished (cma_run s xs) out.
Proof.
  induction xs as [|v xs IH]; intros fuel x s out Hf;
    destruct fuel as [|fuel]; simpl in Hf; try lia.
  - reflexivity.
  - simpl. rewrite IH by lia. reflexivity.
Qed.

Lemma cma_loop_show_num (xs : list double) :
  forall (fuel : nat) (x : double) (s : cumulative_average_t) (out : list double),
  (length xs < fuel)%nat ->
  cma_loop_show fuel (map Num xs) x s out =
  Finished (cma_run s xs) (out ++ cma_trace s xs).
Proof.
  induction xs as [|v xs IH]; intros fuel x s out Hf;
    destruct fuel as [|fuel]; simpl in Hf; try lia.
  - simpl. now rewrite app_nil_r.
  - simpl. rewrite IH by lia. rewrite <- app_assoc. reflexivity.
Qed.

Lemma sma_loop_num (f : runtime_flags_t) (xs : list double) :
  forall (fuel : nat) (x : double) (v : Z * simple_moving_average_t * list double),
  (length xs < fuel)%nat ->
  sma_loop f fuel (map Num xs) x v =
  Finished (fst (sma_drive f v xs)) (snd (sma_drive f v xs)).
Proof.
  induction xs as [|y xs IH]; intros fuel x v Hf;
    destruct fuel as [|fuel]; simpl in Hf; try lia.
  - reflexivity.
  - simpl. rewrite IH by lia. reflexivity.
Qed.

(** ** The moving averager, window by window *)

Lemma sma_step_incomplete (s : simple_moving_average_t) (x : double) :
  count (cma_step (current_window s) x) <> window s ->
  sma_step s x =
  mk_simple_moving_average (cma_step (current_window s) x) (simple_average s) (window s).
Proof.
  intros H. rewrite sma_step_eq. cbv zeta.
  destruct (Z.eqb_spec (count (cma_step (current_window s) x)) (window s));
    [contradiction | reflexivity].
Qed.

Lemma sma_step_complete (s : simple_moving_average_t) (x : double) :
  count (cma_step (current_window s) x) = window s ->
  sma_step s x =
  mk_simple_moving_average cma0
    (cma_step (simple_average s) (average (cma_step (current_window s) x))) (window s).
Proof.
  intros H. rewrite sma_step_eq. cbv zeta.
  destruct (Z.eqb_spec (count (cma_step (current_window s) x)) (window s));
    [reflexivity | contradiction].
Qed.

Lemma sma_run_partial (s : simple_moving_average_t) (l : list double) :
  0 <= count (current_window s) ->
  count (current_window s) + Z.of_nat (length l) < window s ->
  window s <= Long.LONG_MAX ->
  sma_run s l =
  mk_simple_moving_average (cma_run (current_window s) l) (simple_average s) (window s).
Proof.
  induction l as [|x l IH] using rev_ind; intros H0 Hl HW.
  - destruct s; reflexivity.
  - rewrite length_app in Hl. simpl in Hl.
    rewrite sma_run_snoc, IH by lia.
    rewrite sma_step_incomplete; cbn [current_window simple_average window];
      rewrite <- cma_run_snoc; [reflexivity|].
    rewrite count_cma_run; rewrite ?length_app; simpl; lia.
Qed.

Lemma sma_run_window (a : cumulative_average_t) (W : Z) (l : list double) :
  0 < W <= Long.LONG_MAX ->
  Z.of_nat (length l) = W ->
  sma_run (mk_simple_moving_average cma0 a W) l =
  mk_simple_moving_average cma0 (cma_step a (mean l)) W.
Proof.
  intros HW Hl. destruct l as [|x l _] using rev_ind; [simpl in Hl; lia|].
  assert (Hl' := Hl). rewrite length_app in Hl'. simpl in Hl'.
  rewrite sma_run_snoc, sma_run_partial by (simpl; lia).
  rewrite sma_step_complete; cbn [current_window simple_average window];
    rewrite <- cma_run_snoc.
  - rewrite average_cma_run; [reflexivity | | lia].
    destruct l; discriminate.
  - rewrite count_cma_run; simpl; lia.
Qed.

Lemma sma_run_windows (W : Z) (ws : list (list double)) :
  forall (a : cumulative_average_t) (tail : list double),
  0 < W <= Long.LONG_MAX ->
  Forall (fun w => Z.of_nat (length w) = W) ws ->
  Z.of_nat (length tail) < W ->
  sma_run (mk_simple_moving_average cma0 a W) (concat ws ++ tail) =
  mk_simple_moving_average (cma_run cma0 tail) (cma_run a (map mean ws)) W.
Proof.
  induction ws as [|w ws IH]; intros a tail HW Hws Ht.
  - simpl. rewrite sma_run_partial by (simpl; lia). reflexivity.
  - inversion Hws as [|? ? Hw Hws']; subst.
    simpl concat. rewrite <- app_assoc, sma_run_app.
    rewrite sma_run_window by (auto; lia).
    rewrite IH by assumption. reflexivity.
Qed.

Lemma split_windows (W : Z) (xs : list double) :
  0 < W ->
  exists (ws : list (list double)) (tail : list double),
    xs = concat ws ++ tail /\
    Forall (fun w => Z.of_nat (length w) = W) ws /\
    Z.of_nat (length tail) < W.
Proof.
  intros HW. induction xs as [|x xs IH] using rev_ind.
  - exists [], []. simpl. repeat split; [constructor | lia].
  - destruct IH as (ws & tail & E & Hws & Ht).
    destruct (Z.eq_dec (Z.of_nat (length tail) + 1) W) as [Hfull|Hpart].
    + exists (ws ++ [tail ++ [x]]), []. repeat split.
      * rewrite concat_app. simpl. rewrite !app_nil_r, E, app_assoc. reflexivity.
      * apply Forall_app. split; [assumption|]. constructor; [|constructor].
        rewrite length_app. simpl. lia.
      * simpl. lia.
    + exists ws, (tail ++ [x]). repeat split.
      * rewrite E, app_assoc. reflexivity.
      * assumption.
      * rewrite length_app. simpl. lia.
Qed.

(** ** The moving-average loop of [main] *)

Lemma sma_body_eq (f : runtime_flags_t) (x : double) (c : Z)
  (st : simple_moving_average_t) (out : list double) :
  sma_body f x (c, st, out) =
  (if Long.incr c =? window_size f then 0 else Long.incr c,
   sma_step st x,
   if (Long.incr c =? window_size f) && negb (show_intermediates f =? 0)
   then out ++ [average (simple_average (sma_step st x))]
   else out).
Proof.
  unfold sma_body, sma_step.
  destruct (simple_moving_average x st) as [a st'] eqn:E. cbn [snd].
  destruct (Long.incr c =? window_size f); [|reflexivity].
  destruct (show_intermediates f =? 0); cbn [negb andb]; [reflexivity|].
  rewrite sma_eq. reflexivity.
Qed.

Lemma sma_drive_snoc (f : runtime_flags_t) (v : Z * simple_moving_average_t * list double)
  (xs : list double) (x : double) :
  sma_drive f v (xs ++ [x]) = sma_body f x (sma_drive f v xs).
Proof. unfold sma_drive. rewrite fold_left_app. reflexivity. Qed.

Lemma sma_drive_state (f : runtime_flags_t) (xs : list double) :
  forall v : Z * simple_moving_average_t * list double,
  snd (fst (sma_drive f v xs)) = sma_run (snd (fst v)) xs.
Proof.
  induction xs as [|x xs IH] using rev_ind; intros v.
  - reflexivity.
  - rewrite sma_drive_snoc, sma_run_snoc, <- IH.
    destruct (sma_drive f v xs) as [[c st] out]. rewrite sma_body_eq. reflexivity.
Qed.

Lemma sma_drive_quiet (f : runtime_flags_t) (xs : list double) :
  forall v : Z * simple_moving_average_t * list double,
  show_intermediates f = 0 ->
  snd (sma_drive f v xs) = snd v.
Proof.
  induction xs as [|x xs IH] using rev_ind; intros v Hs.
  - reflexivity.
  - rewrite sma_drive_snoc, <- (IH v Hs).
    destruct (sma_drive f v xs) as [[c st] out]. rewrite sma_body_eq, Hs.
    rewrite andb_false_r. reflexivity.
Qed.

(** The driver's counter and the averager's window counter move in step. *)
Lemma sma_drive_counter (f : runtime_flags_t) (xs : list double) :
  forall (c : Z) (st : simple_moving_average_t) (out : list double),
  window st = window_size f ->
  c = count (current_window st) ->
  fst (fst (sma_drive f (c, st, out) xs)) =
    count (current_window (snd (fst (sma_drive f (c, st, out) xs)))) /\
  window (snd (fst (sma_drive f (c, st, out) xs))) = window_size f.
Proof.
  induction xs as [|x xs IH] using rev_ind; intros c st out HW Hc.
  - simpl. auto.
  - rewrite sma_drive_snoc.
    destruct (IH c st out HW Hc) as [Ic Iw].
    destruct (sma_drive f (c, st, out) xs) as [[c1 st1] out1]. simpl in Ic, Iw.
    rewrite sma_body_eq. cbn [fst snd]. rewrite window_sma_step. split; [|exact Iw].
    subst c1. rewrite sma_step_eq. cbv zeta. rewrite Iw.
    change (count (cma_step (current_window st1) x))
      with (Long.incr (count (current_window st1))).
    destruct (Long.incr (count (current_window st1)) =? window_size f); reflexivity.
Qed.

(** With a positive window the counter is the number of samples modulo the
    window, and the number of intermediate lines is the quotient. *)
Lemma sma_drive_lines (f : runtime_flags_t) (st : simple_moving_average_t)
  (xs : list double) :
  0 < window_size f <= Long.LONG_MAX ->
  show_intermediates f <> 0 ->
  exists q r : Z,
    Z.of_nat (length xs) = window_size f * q + r /\
    0 <= r < window_size f /\
    fst (fst (sma_drive f (0, st, []) xs)) = r /\
    Z.of_nat (length (snd (sma_drive f (0, st, []) xs))) = q.
Proof.
  intros HW Hs. induction xs as [|x xs IH] using rev_ind.
  - exists 0, 0. simpl. repeat split; lia.
  - destruct IH as (q & r & Hn & Hr & Hc & Ho).
    rewrite sma_drive_snoc, length_app. simpl length.
    destruct (sma_drive f (0, st, []) xs) as [[c st1] out]. simpl in Hc, Ho.
    rewrite sma_body_eq. cbn [fst snd]. subst c.
    rewrite incr_in_range by (pose proof LONG_MIN_neg; lia).
    destruct (Z.eqb_spec (show_intermediates f) 0) as [|_]; [contradiction|].
    destruct (Z.eqb_spec (r + 1) (window_size f)) as [Hfull|Hpart]; simpl.
    + exists (q + 1), 0. rewrite length_app. simpl. repeat split; lia.
    + exists q, (r + 1). repeat split; lia.
Qed.

(** ** Two exact facts of binary64 arithmetic

    Adding a number to [0.0] and dividing a number by [1.0] do not round. *)

Lemma bounded_cases (m : positive) (e : Z) :
  bounded Double.prec Double.emax m e = true ->
  fexp Double.prec Double.emax (Zpos (digits2_pos m) + e) = e /\ e <= 971 /\
  ((Zpos (digits2_pos m) = 53 /\ -1073 <= e) \/
   (Zpos (digits2_pos m) <= 53 /\ e = -1074)).
Proof.
  unfold bounded, canonical_mantissa, Double.prec, Double.emax. intros H.
  apply andb_prop in H. destruct H as [H1 H2].
  apply Z.eqb_eq in H1. apply Z.leb_le in H2.
  split; [exact H1|]. split; [lia|].
  unfold fexp, emin in H1. lia.
Qed.

Lemma shr_fexp_canonical (m : positive) (e : Z) :
  fexp Double.prec Double.emax (Zpos (digits2_pos m) + e) = e ->
  shr_fexp Double.prec Double.emax (Zpos m) e loc_Exact =
  ({| shr_m := Zpos m; shr_r := false; shr_s := false |}, e).
Proof.
  intros H. unfold shr_fexp. cbn [Zdigits2]. rewrite H, Z.sub_diag. reflexivity.
Qed.

Lemma binary_round_aux_canonical (s : bool) (m : positive) (e : Z) :
  bounded Double.prec Double.emax m e = true ->
  binary_round_aux Double.prec Double.emax s (Zpos m) e loc_Exact = S754_finite s m e.
Proof.
  intros H. destruct (bounded_cases m e H) as (Hc & He & _).
  unfold binary_round_aux. rewrite shr_fexp_canonical by exact Hc.
  cbn [shr_m loc_of_shr_record round_nearest_even].
  rewrite shr_fexp_canonical by exact Hc. cbn [shr_m].
  unfold Double.prec, Double.emax.
  destruct (Z.leb_spec e (1024 - 53)); [reflexivity | lia].
Qed.

Lemma binary_round_aux_twice (s : bool) (m : positive) (e : Z) :
  bounded Double.prec Double.emax m e = true ->
  -1073 <= e ->
  binary_round_aux Double.prec Double.emax s (Zpos m~0) (e - 1) loc_Exact =
  S754_finite s m e.
Proof.
  intros H Hn. destruct (bounded_cases m e H) as (Hc & He & [[Hd _]|[_ He']]); [|lia].
  unfold binary_round_aux.
  assert (E : shr_fexp Double.prec Double.emax (Zpos m~0) (e - 1) loc_Exact =
              ({| shr_m := Zpos m; shr_r := false; shr_s := false |}, e)).
  { unfold shr_fexp. cbn [Zdigits2 digits2_pos]. rewrite Pos2Z.inj_succ, Hd.
    replace (fexp Double.prec Double.emax (Z.succ 53 + (e - 1)) - (e - 1)) with 1
      by (unfold fexp, emin, Double.prec, Double.emax; lia).
    cbn. f_equal. lia. }
  rewrite E. cbn [shr_m loc_of_shr_record round_nearest_even].
  rewrite shr_fexp_canonical by exact Hc. cbn [shr_m].
  unfold Double.prec, Double.emax.
  destruct (Z.leb_spec e (1024 - 53)); [reflexivity | lia].
Qed.

Lemma div_eucl_mul (a b : Z) : 0 < b -> Z.div_eucl (a * b) b = (a, 0).
Proof.
  intros Hb. pose proof (Z.div_mul a b) as D. pose proof (Z.mod_mul a b) as M.
  unfold Z.div, Z.modulo in D, M.
  destruct (Z.div_eucl (a * b) b) as [q r]. simpl in D, M.
  rewrite D, M by lia. reflexivity.
Qed.

Lemma of_long_1 : Double.of_long 1 = S754_finite false 4503599627370496 (-52).
Proof. reflexivity. Qed.

Lemma div_finite_one (s : bool) (m : positive) (e : Z) :
  bounded Double.prec Double.emax m e = true ->
  Double.div (S754_finite s m e) (Double.of_long 1) = S754_finite s m e.
Proof.
  intros H. destruct (bounded_cases m e H) as (Hc & He & Hcase).
  rewrite of_long_1. unfold Double.div, SFdiv, SFdiv_core_binary.
  change (Zdigits2 4503599627370496) with 53.
  cbn [Zdigits2].
  destruct Hcase as [[Hd Hn]|[Hd Hs]].
  - replace (Z.min (fexp Double.prec Double.emax
                      (Zpos (digits2_pos m) + e - (53 + -52))) (e - -52))
      with (e - 1) by (unfold fexp, emin, Double.prec, Double.emax; lia).
    replace (e - -52 - (e - 1)) with 53 by lia.
    rewrite Z.shiftl_mul_pow2 by lia.
    change (2 ^ 53) with (2 * 4503599627370496).
    rewrite Z.mul_assoc, div_eucl_mul by lia.
    change (new_location 4503599627370496 0) with loc_Exact.
    replace (Zpos m * 2) with (Zpos m~0) by lia.
    rewrite binary_round_aux_twice by assumption.
    destruct s; reflexivity.
  - replace (Z.min (fexp Double.prec Double.emax
                      (Zpos (digits2_pos m) + e - (53 + -52))) (e - -52))
      with e by (unfold fexp, emin, Double.prec, Double.emax; lia).
    replace (e - -52 - e) with 52 by lia.
    rewrite Z.shiftl_mul_pow2 by lia.
    change (2 ^ 52) with 4503599627370496.
    rewrite div_eucl_mul by lia.
    change (new_location 4503599627370496 0) with loc_Exact.
    rewrite binary_round_aux_canonical by assumption.
    destruct s; reflexivity.
Qed.

Lemma div_one (x : double) :
  Double.valid x = true -> Double.div x (Double.of_long 1) = x.
Proof.
  destruct x as [s|s| |s m e]; intros H.
  - destruct s; reflexivity.
  - destruct s; reflexivity.
  - reflexivity.
  - apply div_finite_one. exact H.
Qed.

Lemma add_zero_l (x : double) :
  Double.add Double.zero x = match x with S754_zero _ => Double.zero | _ => x end.
Proof. destruct x as [[|]|[|]| |s m e]; reflexivity. Qed.

Lemma same_refl (x : double) : Double.same x x = true.
Proof.
  unfold Double.same, Double.eqb, SFeqb.
  destruct x as [s|s| |s m e]; simpl; try reflexivity.
  - destruct s; reflexivity.
  - rewrite Z.compare_refl, Pos.compare_cont_refl. destruct s; reflexivity.
Qed.

(** ** The cumulative averager: invariant and reset *)

Lemma cma_exec_snoc (s : cumulative_average_t) (ops : list cma_op) (o : cma_op) :
  cma_exec s (ops ++ [o]) = cma_apply (cma_exec s ops) o.
Proof. unfold cma_exec. rewrite fold_left_app. reflexivity. Qed.

Lemma cma_apply_update (s : cumulative_average_t) (x : double) :
  cma_apply s (op_update x) = cma_step s x.
Proof. reflexivity. Qed.

Lemma cma_apply_reset (s : cumulative_average_t) : cma_apply s op_reset = cma0.
Proof. reflexivity. Qed.

Lemma cma_exec_inv (s0 : cumulative_average_t) (ops : list cma_op) :
  Z.of_nat (length ops) <= Long.LONG_MAX ->
  let s := cma_exec (snd (cma_reset s0)) ops in
  0 <= count s <= Z.of_nat (length ops) /\
  (count s = 0 -> s = cma0) /\
  (0 < count s -> average s = Double.div (total s) (Double.of_long (count s))).
Proof.
  induction ops as [|o ops IH] using rev_ind; intros H.
  - simpl. repeat split; try reflexivity; lia.
  - rewrite length_app in H. simpl in H.
    destruct IH as (Hc & Hz & Ha); [lia|].
    cbv zeta. rewrite cma_exec_snoc, length_app. simpl length.
    destruct o as [x|].
    + rewrite cma_apply_update, cma_step_eq. cbn [count average total].
      rewrite incr_in_range by (pose proof LONG_MIN_neg; lia).
      repeat split; lia.
    + rewrite cma_apply_reset. repeat split; try reflexivity; simpl; lia.
Qed.

(** C6. In every state reached from the reset state by at most [LONG_MAX]
    update and reset operations (so that [count] has not overflowed),
    [average] is [total / count] when [count > 0] and [0] when [count = 0];
    [cma] returns [average] and leaves the state as it is. *)
Theorem cma_invariant (s0 : cumulative_average_t) (ops : list cma_op) :
  Z.of_nat (length ops) <= Long.LONG_MAX ->
  let s := cma_exec (snd (cma_reset s0)) ops in
  (0 < count s -> average s = Double.div (total s) (Double.of_long (count s))) /\
  (count s = 0 -> average s = Double.zero) /\
  cma s = (average s, s).
Proof.
  intros H. destruct (cma_exec_inv s0 ops H) as (_ & Hz & Ha).
  cbv zeta. split; [exact Ha|]. split; [|reflexivity].
  intros Hc. rewrite (Hz Hc). reflexivity.
Qed.

Lemma cma_invariant_witness :
  let ops := [op_update (Double.of_long 4); op_reset; op_update (Double.of_long 6);
              op_update (Double.of_long 1)] in
  let s := cma_exec (snd (cma_reset cma0)) ops in
  Z.of_nat (length ops) <= Long.LONG_MAX /\
  (0 < count s -> average s = Double.div (total s) (Double.of_long (count s))) /\
  (count s = 0 -> average s = Double.zero) /\
  cma s = (average s, s).
Proof.
  split; [vm_compute; discriminate|].
  apply (cma_invariant cma0
           [op_update (Double.of_long 4); op_reset; op_update (Double.of_long 6);
            op_update (Double.of_long 1)]).
  vm_compute; discriminate.
Defined.

(** C8. After [cma_reset], [cma] returns [0]; the next update yields the
    state and the value that the same update yields on a freshly created
    averager, with [count = 1] and with [total] and [average] equal to [x]
    (the same number as [x]; the very same double unless [x] is [-0.0],
    for which both are [0.0]). *)
Theorem cma_reset_then_update (s fresh : cumulative_average_t) (x : double) :
  Double.valid x = true ->
  let r := snd (cma_reset s) in
  let s' := snd (cumulative_average x r) in
  fst (cma r) = Double.zero /\
  cumulative_average x r = cumulative_average x (snd (cma_reset fresh)) /\
  fst (cumulative_average x r) = average s' /\
  count s' = 1 /\
  Double.same (total s') x = true /\
  Double.same (average s') x = true /\
  (x <> S754_zero true -> total s' = x /\ average s' = x).
Proof.
  intros Hv. cbv zeta. rewrite !cma_reset_eq. cbn [snd].
  rewrite cumulative_average_eq. cbv zeta. cbn [fst snd count total average cma0].
  change (Long.incr 0) with 1.
  rewrite add_zero_l.
  repeat split; destruct x as [sx|sx| |sx mx ex];
    rewrite ?div_one by exact Hv; try apply same_refl; try reflexivity.
  - destruct sx; [congruence | reflexivity].
  - destruct sx; [congruence | reflexivity].
Qed.

Lemma cma_reset_then_update_witness :
  let x := Double.dyadic 7 (-1) in
  let s := mk_cumulative_average (Double.of_long 5) (Double.of_long 10) 2 in
  let r := snd (cma_reset s) in
  let s' := snd (cumulative_average x r) in
  Double.valid x = true /\
  fst (cma r) = Double.zero /\
  cumulative_average x r = cumulative_average x (snd (cma_reset cma0)) /\
  fst (cumulative_average x r) = average s' /\
  count s' = 1 /\
  Double.same (total s') x = true /\
  Double.same (average s') x = true /\
  (x <> S754_zero true -> total s' = x /\ average s' = x).
Proof.
  split; [reflexivity|].
  apply (cma_reset_then_update
           (mk_cumulative_average (Double.of_long 5) (Double.of_long 10) 2) cma0
           (Double.dyadic 7 (-1))).
  reflexivity.
Defined.

(** C7. On empty input the cumulative average in final-only mode, which is
    the mode of a run without options, prints the single line [0.0] and
    exits with status 0. *)
Theorem cma_empty_input (atol : string -> Z) (fn : option string) (pn : string)
  (W : Z) (l : locals) (fuel : nat) :
  run_mode (mk_runtime_flags fn pn CUMULATIVE_AVERAGE 0 W) [] l (S fuel) =
    Exit 0 [Double.zero] /\
  main atol [] [] [] l (S fuel) = Exit 0 [Double.zero].
Proof. split; reflexivity. Qed.

(** ** The cumulative average of a stream *)

(** C2. For samples [x_1 .. x_n], [n >= 1] (and [n] within the range of
    [long]), the cumulative-average mode prints [(x_1 + ... + x_n) / n] in
    final-only mode, and with intermediates it prints [n] lines, the [k]-th
    being [(x_1 + ... + x_k) / k]; sums and quotients are those of [double]
    arithmetic, the sum accumulated in input order. *)
Theorem cma_output (fn : option string) (pn : string) (sh W : Z)
  (xs : list double) (l : locals) (fuel : nat) :
  xs <> [] ->
  Z.of_nat (length xs) <= Long.LONG_MAX ->
  (length xs < fuel)%nat ->
  sh <> 0 ->
  run_mode (mk_runtime_flags fn pn CUMULATIVE_AVERAGE 0 W) (map Num xs) l fuel =
    Exit 0 [Double.div (fsum xs) (Double.of_long (Z.of_nat (length xs)))] /\
  exists out : list double,
    run_mode (mk_runtime_flags fn pn CUMULATIVE_AVERAGE sh W) (map Num xs) l fuel =
      Exit 0 out /\
    length out = length xs /\
    forall k : nat, (1 <= k <= length xs)%nat ->
      nth_error out (k - 1) =
      Some (Double.div (fsum (firstn k xs)) (Double.of_long (Z.of_nat k))).
Proof.
  intros Hne Hn Hf Hs. unfold run_mode. cbn [runtime_mode show_intermediates].
  rewrite cma_reset_eq. cbn [snd]. split.
  - cbn [Z.eqb negb]. rewrite cma_loop_num by exact Hf.
    rewrite cma_eq. cbn [fst app]. rewrite average_cma_run by assumption.
    reflexivity.
  - destruct (Z.eqb_spec sh 0) as [|_]; [contradiction|]. cbn [negb].
    rewrite cma_loop_show_num by exact Hf. cbn [app].
    exists (cma_trace cma0 xs). split; [reflexivity|].
    split; [apply length_cma_trace|].
    intros k Hk. destruct k as [|k]; [lia|].
    replace (S k - 1)%nat with k by lia.
    rewrite nth_cma_trace by lia.
    assert (Hl : length (firstn (S k) xs) = S k) by (apply firstn_length_le; lia).
    rewrite average_cma_run.
    + unfold mean. rewrite Hl. reflexivity.
    + destruct xs; [contradiction | discriminate].
    + rewrite Hl. lia.
Qed.

Lemma cma_output_witness :
  let xs := map Double.of_long [1; 2; 6] in
  let l := mk_locals cma0 (mk_simple_moving_average cma0 cma0 0) Double.zero in
  xs <> [] /\
  Z.of_nat (length xs) <= Long.LONG_MAX /\
  (length xs < 4)%nat /\
  1 <> 0 /\
  run_mode (mk_runtime_flags None "avg" CUMULATIVE_AVERAGE 0 10) (map Num xs) l 4 =
    Exit 0 [Double.div (fsum xs) (Double.of_long (Z.of_nat (length xs)))] /\
  exists out : list double,
    run_mode (mk_runtime_flags None "avg" CUMULATIVE_AVERAGE 1 10) (map Num xs) l 4 =
      Exit 0 out /\
    length out = length xs /\
    forall k : nat, (1 <= k <= length xs)%nat ->
      nth_error out (k - 1) =
      Some (Double.div (fsum (firstn k xs)) (Double.of_long (Z.of_nat k))).
Proof.
  split; [discriminate|].
  split; [vm_compute; discriminate|].
  split; [simpl; lia|].
  split; [discriminate|].
  apply (cma_output None "avg" 1 10 (map Double.of_long [1; 2; 6])
           (mk_locals cma0 (mk_simple_moving_average cma0 cma0 0) Double.zero) 4).
  - discriminate.
  - vm_compute; discriminate.
  - simpl; lia.
  - discriminate.
Defined.

(** ** The simple moving average of a stream *)

Lemma sma_run_reset (W : Z) (s : simple_moving_average_t)
  (ws : list (list double)) (tail : list double) :
  0 < W <= Long.LONG_MAX ->
  Forall (fun w => Z.of_nat (length w) = W) ws ->
  Z.of_nat (length tail) < W ->
  sma_run (snd (sma_reset W s)) (concat ws ++ tail) =
  mk_simple_moving_average (cma_run cma0 tail) (cma_run cma0 (map mean ws)) W.
Proof. intros. rewrite sma_reset_eq. cbn [snd]. now apply sma_run_windows. Qed.

Lemma sma_final_output (fn : option string) (pn : string) (W : Z)
  (xs : list double) (l : locals) (fuel : nat) :
  (length xs < fuel)%nat ->
  run_mode (mk_runtime_flags fn pn SIMPLE_MOVING_AVERAGE 0 W) (map Num xs) l fuel =
  Exit 0 [fst (sma (sma_run (snd (sma_reset W (sma_state l))) xs))].
Proof.
  intros Hf. unfold run_mode. cbn [runtime_mode show_intermediates window_size].
  rewrite sma_loop_num by exact Hf.
  pose proof (sma_drive_state (mk_runtime_flags fn pn SIMPLE_MOVING_AVERAGE 0 W) xs
                (0, snd (sma_reset W (sma_state l)), [])) as Hst.
  pose proof (sma_drive_quiet (mk_runtime_flags fn pn SIMPLE_MOVING_AVERAGE 0 W) xs
                (0, snd (sma_reset W (sma_state l)), []) eq_refl) as Hout.
  destruct (sma_drive _ _ xs) as [[c st] out]. cbn [fst snd] in *.
  subst st out. reflexivity.
Qed.

(** C1. With window size [W > 0], after the [m * W] samples of [m >= 1] full
    windows, [sma] is the mean of the [m] window means, each the mean of the
    [W] samples of its window; the samples of a trailing partial window do
    not change it, and the final-only output of the moving-average mode is
    that value.  Before the first window is complete [sma] is [0].  With
    [W = 3], the samples [1 2 3 10 20] give [2.0] and the samples
    [1 2 3 4 5 6] give [3.5]. *)
Theorem sma_mean_of_window_means :
  (forall (W : Z) (ws : list (list double)) (tail : list double)
          (s : simple_moving_average_t) (fn : option string) (pn : string)
          (l : locals) (fuel : nat),
     0 < W <= Long.LONG_MAX ->
     ws <> [] ->
     Z.of_nat (length ws) <= Long.LONG_MAX ->
     Forall (fun w => Z.of_nat (length w) = W) ws ->
     Z.of_nat (length tail) < W ->
     (length (concat ws ++ tail) < fuel)%nat ->
     fst (sma (sma_run (snd (sma_reset W s)) (concat ws))) = mean (map mean ws) /\
     fst (sma (sma_run (snd (sma_reset W s)) (concat ws ++ tail))) =
       mean (map mean ws) /\
     run_mode (mk_runtime_flags fn pn SIMPLE_MOVING_AVERAGE 0 W)
       (map Num (concat ws ++ tail)) l fuel = Exit 0 [mean (map mean ws)]) /\
  (forall (W : Z) (tail : list double) (s : simple_moving_average_t),
     0 < W <= Long.LONG_MAX ->
     Z.of_nat (length tail) < W ->
     fst (sma (sma_run (snd (sma_reset W s)) tail)) = Double.zero) /\
  (forall (l : locals),
     run_mode (mk_runtime_flags None "avg" SIMPLE_MOVING_AVERAGE 0 3)
       (map Num (map Double.of_long [1; 2; 3; 10; 20])) l 6 =
     Exit 0 [Double.of_long 2]) /\
  (forall (l : locals),
     run_mode (mk_runtime_flags None "avg" SIMPLE_MOVING_AVERAGE 0 3)
       (map Num (map Double.of_long [1; 2; 3; 4; 5; 6])) l 7 =
     Exit 0 [Double.dyadic 7 (-1)]).
Proof.
  split; [|split; [|split; intros l; vm_compute; reflexivity]].
  2: { intros W tail s HW Ht.
       change tail with (concat [] ++ tail).
       rewrite sma_run_reset by (auto; lia). reflexivity. }
  intros W ws tail s fn pn l fuel HW Hne Hm Hws Ht Hf.
  assert (Hmean : average (cma_run cma0 (map mean ws)) = mean (map mean ws)).
  { apply average_cma_run.
    - destruct ws; [contradiction | discriminate].
    - rewrite length_map. exact Hm. }
  assert (Hfull : fst (sma (sma_run (snd (sma_reset W s)) (concat ws ++ tail))) =
                  mean (map mean ws)).
  { rewrite sma_run_reset by assumption. rewrite sma_eq. exact Hmean. }
  split; [|split].
  - rewrite <- (app_nil_r (concat ws)).
    rewrite sma_run_reset by (simpl; auto; lia). rewrite sma_eq. exact Hmean.
  - exact Hfull.
  - rewrite sma_final_output by exact Hf.
    rewrite sma_run_reset by assumption. rewrite sma_eq. cbn [fst simple_average].
    rewrite Hmean. reflexivity.
Qed.

Lemma sma_mean_of_window_means_witness :
  let W := 3 in
  let ws := [map Double.of_long [1; 2; 3]; map Double.of_long [4; 5; 6]] in
  let tail := map Double.of_long [10; 20] in
  let s := mk_simple_moving_average cma0 cma0 0 in
  let l := mk_locals cma0 s Double.zero in
  (0 < W <= Long.LONG_MAX) /\
  ws <> [] /\
  Z.of_nat (length ws) <= Long.LONG_MAX /\
  Forall (fun w => Z.of_nat (length w) = W) ws /\
  Z.of_nat (length tail) < W /\
  (length (concat ws ++ tail) < 9)%nat /\
  fst (sma (sma_run (snd (sma_reset W s)) (concat ws))) = mean (map mean ws) /\
  fst (sma (sma_run (snd (sma_reset W s)) (concat ws ++ tail))) = mean (map mean ws) /\
  run_mode (mk_runtime_flags None "avg" SIMPLE_MOVING_AVERAGE 0 W)
    (map Num (concat ws ++ tail)) l 9 = Exit 0 [mean (map mean ws)].
Proof.
  assert (HW : 0 < 3 <= Long.LONG_MAX) by (split; vm_compute; congruence).
  assert (Hws : Forall (fun w => Z.of_nat (length w) = 3)
                  [map Double.of_long [1; 2; 3]; map Double.of_long [4; 5; 6]])
    by (repeat constructor).
  split; [exact HW|].
  split; [discriminate|].
  split; [vm_compute; discriminate|].
  split; [exact Hws|].
  split; [reflexivity|].
  split; [simpl; lia|].
  apply (proj1 sma_mean_of_window_means 3
           [map Double.of_long [1; 2; 3]; map Double.of_long [4; 5; 6]]
           (map Double.of_long [10; 20])
           (mk_simple_moving_average cma0 cma0 0) None "avg"%string
           (mk_locals cma0 (mk_simple_moving_average cma0 cma0 0) Double.zero) 9%nat).
  - exact HW.
  - discriminate.
  - vm_compute; discriminate.
  - exact Hws.
  - reflexivity.
  - simpl; lia.
Defined.

(** C4. With window size [W > 0], after every update the window counter is
    in [[0, W)]: the update either leaves the window one sample fuller and
    [simple_average] untouched, or completes the window, resets it and folds
    the mean of its [W] samples into [simple_average], which is at all times
    the cumulative average of the means of the completed windows. *)
Theorem sma_window_invariant (W : Z) (s : simple_moving_average_t)
  (xs : list double) (x : double) :
  0 < W <= Long.LONG_MAX ->
  let st := sma_run (snd (sma_reset W s)) xs in
  let st' := snd (simple_moving_average x st) in
  0 <= count (current_window st') < W /\
  exists (ws : list (list double)) (tail : list double),
    xs = concat ws ++ tail /\
    Forall (fun w => Z.of_nat (length w) = W) ws /\
    Z.of_nat (length tail) < W /\
    current_window st = cma_run cma0 tail /\
    simple_average st = cma_run cma0 (map mean ws) /\
    ((Z.of_nat (length tail) + 1 < W /\
      current_window st' = cma_run cma0 (tail ++ [x]) /\
      count (current_window st') = Z.of_nat (length tail) + 1 /\
      simple_average st' = simple_average st)
     \/
     (Z.of_nat (length tail) + 1 = W /\
      current_window st' = snd (cma_reset (current_window st)) /\
      count (current_window st') = 0 /\
      simple_average st' = cma_step (simple_average st) (mean (tail ++ [x])))).
Proof.
  intros HW. cbv zeta.
  destruct (split_windows W xs) as (ws & tail & E & Hws & Ht); [lia|].
  fold (sma_step (sma_run (snd (sma_reset W s)) xs) x).
  rewrite <- sma_run_snoc. subst xs.
  rewrite (sma_run_reset W s ws tail) by assumption.
  cbn [current_window simple_average].
  destruct (Z.eq_dec (Z.of_nat (length tail) + 1) W) as [Hfull|Hpart].
  - assert (Hws' : Forall (fun w => Z.of_nat (length w) = W) (ws ++ [tail ++ [x]])).
    { apply Forall_app. split; [assumption|]. constructor; [|constructor].
      rewrite length_app. simpl. lia. }
    assert (E' : (concat ws ++ tail) ++ [x] = concat (ws ++ [tail ++ [x]]) ++ []).
    { rewrite concat_app. simpl. rewrite !app_nil_r, app_assoc. reflexivity. }
    rewrite E', (sma_run_reset W s _ []) by (simpl; auto; lia).
    cbn [current_window simple_average]. split; [simpl; lia|].
    exists ws, tail. repeat split; try assumption. right.
    repeat split; try assumption.
    rewrite map_app. simpl map. rewrite cma_run_snoc. reflexivity.
  - rewrite <- app_assoc, (sma_run_reset W s ws (tail ++ [x]))
      by (rewrite ?length_app; simpl; auto; lia).
    cbn [current_window simple_average].
    assert (Hc : count (cma_run cma0 (tail ++ [x])) = Z.of_nat (length tail) + 1).
    { rewrite count_cma_run; rewrite ?length_app; simpl; lia. }
    split; [lia|].
    exists ws, tail. repeat split; try assumption. left.
    repeat split; try assumption; lia.
Qed.

Lemma sma_window_invariant_witness :
  let W := 2 in
  let s := mk_simple_moving_average cma0 cma0 0 in
  let xs := map Double.of_long [1; 2; 3] in
  let x := Double.of_long 4 in
  let st := sma_run (snd (sma_reset W s)) xs in
  let st' := snd (simple_moving_average x st) in
  0 < W <= Long.LONG_MAX /\
  0 <= count (current_window st') < W /\
  exists (ws : list (list double)) (tail : list double),
    xs = concat ws ++ tail /\
    Forall (fun w => Z.of_nat (length w) = W) ws /\
    Z.of_nat (length tail) < W /\
    current_window st = cma_run cma0 tail /\
    simple_average st = cma_run cma0 (map mean ws) /\
    ((Z.of_nat (length tail) + 1 < W /\
      current_window st' = cma_run cma0 (tail ++ [x]) /\
      count (current_window st') = Z.of_nat (length tail) + 1 /\
      simple_average st' = simple_average st)
     \/
     (Z.of_nat (length tail) + 1 = W /\
      current_window st' = snd (cma_reset (current_window st)) /\
      count (current_window st') = 0 /\
      simple_average st' = cma_step (simple_average st) (mean (tail ++ [x])))).
Proof.
  assert (HW : 0 < 2 <= Long.LONG_MAX) by (split; vm_compute; congruence).
  split; [exact HW|].
  apply (sma_window_invariant 2 (mk_simple_moving_average cma0 cma0 0)
           (map Double.of_long [1; 2; 3]) (Double.of_long 4)).
  exact HW.
Defined.

(** C5. In moving-average mode with intermediates and window size [W > 0],
    [n] samples produce exactly [n / W] (rounded down) output lines. *)
Theorem sma_intermediate_lines (fn : option string) (pn : string) (sh W : Z)
  (xs : list double) (l : locals) (fuel : nat) :
  0 < W <= Long.LONG_MAX ->
  sh <> 0 ->
  (length xs < fuel)%nat ->
  exists out : list double,
    run_mode (mk_runtime_flags fn pn SIMPLE_MOVING_AVERAGE sh W) (map Num xs) l fuel =
      Exit 0 out /\
    Z.of_nat (length out) = Z.of_nat (length xs) / W.
Proof.
  intros HW Hs Hf. unfold run_mode. cbn [runtime_mode show_intermediates window_size].
  rewrite sma_loop_num by exact Hf.
  destruct (sma_drive_lines (mk_runtime_flags fn pn SIMPLE_MOVING_AVERAGE sh W)
              (snd (sma_reset W (sma_state l))) xs HW Hs) as (q & r & Hn & Hr & _ & Ho).
  destruct (sma_drive _ _ xs) as [[c st] out]. cbn [fst snd window_size] in *.
  destruct (Z.eqb_spec sh 0) as [|_]; [contradiction|]. cbn [negb].
  exists out. split; [reflexivity|].
  rewrite Ho. apply Z.div_unique with r; lia.
Qed.

Lemma sma_intermediate_lines_witness :
  let xs := map Double.of_long [1; 2; 3; 4; 5; 6; 7] in
  let l := mk_locals cma0 (mk_simple_moving_average cma0 cma0 0) Double.zero in
  0 < 3 <= Long.LONG_MAX /\
  1 <> 0 /\
  (length xs < 8)%nat /\
  exists out : list double,
    run_mode (mk_runtime_flags None "avg" SIMPLE_MOVING_AVERAGE 1 3) (map Num xs) l 8 =
      Exit 0 out /\
    Z.of_nat (length out) = Z.of_nat (length xs) / 3.
Proof.
  assert (HW : 0 < 3 <= Long.LONG_MAX) by (split; vm_compute; congruence).
  split; [exact HW|].
  split; [discriminate|].
  split; [simpl; lia|].
  apply (sma_intermediate_lines None "avg" 1 3
           (map Double.of_long [1; 2; 3; 4; 5; 6; 7])
           (mk_locals cma0 (mk_simple_moving_average cma0 cma0 0) Double.zero) 8).
  - exact HW.
  - discriminate.
  - simpl; lia.
Defined.

(** C9. In the moving-average loop with window size [W > 0] and
    intermediates shown, the driver's counter equals the averager's window
    counter after every iteration; an iteration either folds a window mean
    into [simple_average], resets both counters and prints one line, or does
    none of the three.  [(c, st, out)] are the loop's variables after the
    samples [xs], [(c', st', out')] after one more sample. *)
Theorem sma_driver_counter (fn : option string) (pn : string) (sh W : Z)
  (s : simple_moving_average_t) (xs : list double) (x : double)
  (c c' : Z) (st st' : simple_moving_average_t) (out out' : list double) :
  0 < W ->
  sh <> 0 ->
  sma_drive (mk_runtime_flags fn pn SIMPLE_MOVING_AVERAGE sh W)
    (0, snd (sma_reset W s), []) xs = (c, st, out) ->
  sma_body (mk_runtime_flags fn pn SIMPLE_MOVING_AVERAGE sh W) x (c, st, out) =
    (c', st', out') ->
  (forall (x0 : double) (fuel : nat),
     (length (xs ++ [x]) < fuel)%nat ->
     sma_loop (mk_runtime_flags fn pn SIMPLE_MOVING_AVERAGE sh W) fuel
       (map Num (xs ++ [x])) x0 (0, snd (sma_reset W s), []) =
     Finished (c', st') out') /\
  c = count (current_window st) /\
  c' = count (current_window st') /\
  ((simple_average st' = simple_average st /\ out' = out)
   \/
   (simple_average st' =
      cma_step (simple_average st) (average (cma_step (current_window st) x)) /\
    simple_average st' <> simple_average st /\
    c' = 0 /\
    out' = out ++ [fst (sma st')])).
Proof.
  intros HW Hs Hd Hb.
  split.
  { intros x0 fuel Hf. rewrite sma_loop_num by exact Hf.
    rewrite sma_drive_snoc, Hd, Hb. reflexivity. }
  destruct (sma_drive_counter (mk_runtime_flags fn pn SIMPLE_MOVING_AVERAGE sh W) xs
              0 (snd (sma_reset W s)) [] eq_refl eq_refl) as [Hc Hw].
  rewrite Hd in Hc, Hw. cbn [fst snd window_size] in Hc, Hw.
  split; [exact Hc|].
  rewrite sma_body_eq in Hb. cbn [window_size show_intermediates] in Hb.
  rewrite sma_step_eq in Hb. cbv zeta in Hb. rewrite Hw in Hb.
  change (count (cma_step (current_window st) x))
    with (Long.incr (count (current_window st))) in Hb.
  rewrite <- Hc in Hb.
  destruct (Z.eqb_spec sh 0) as [|_]; [contradiction|].
  destruct (Long.incr c =? W); cbn [andb negb] in Hb;
    injection Hb as <- <- <-; cbn [current_window simple_average].
  - split; [reflexivity|]. right.
    split; [reflexivity|]. split; [|split; [reflexivity|]].
    + intros Heq. apply (f_equal count) in Heq. rewrite cma_step_eq in Heq.
      cbn [count] in Heq. exact (incr_neq _ Heq).
    + rewrite sma_eq. reflexivity.
  - split; [rewrite Hc; reflexivity|]. left. split; reflexivity.
Qed.

Lemma sma_driver_counter_witness :
  let f := mk_runtime_flags None "avg" SIMPLE_MOVING_AVERAGE 1 2 in
  let s := mk_simple_moving_average cma0 cma0 0 in
  let xs := map Double.of_long [1; 2; 3] in
  let x := Double.of_long 4 in
  let v := sma_drive f (0, snd (sma_reset 2 s), []) xs in
  let v' := sma_body f x v in
  0 < 2 /\ 1 <> 0 /\
  (forall (x0 : double) (fuel : nat),
     (length (xs ++ [x]) < fuel)%nat ->
     sma_loop f fuel (map Num (xs ++ [x])) x0 (0, snd (sma_reset 2 s), []) =
     Finished (fst (fst v'), snd (fst v')) (snd v')) /\
  fst (fst v) = count (current_window (snd (fst v))) /\
  fst (fst v') = count (current_window (snd (fst v'))) /\
  ((simple_average (snd (fst v')) = simple_average (snd (fst v)) /\ snd v' = snd v)
   \/
   (simple_average (snd (fst v')) =
      cma_step (simple_average (snd (fst v)))
        (average (cma_step (current_window (snd (fst v))) x)) /\
    simple_average (snd (fst v')) <> simple_average (snd (fst v)) /\
    fst (fst v') = 0 /\
    snd v' = snd v ++ [fst (sma (snd (fst v')))])).
Proof.
  intros f s xs x v v'.
  split; [reflexivity|].
  split; [discriminate|].
  apply (sma_driver_counter None "avg" 1 2 s xs x
           (fst (fst v)) (fst (fst v')) (snd (fst v)) (snd (fst v')) (snd v) (snd v')).
  - reflexivity.
  - discriminate.
  - vm_compute; reflexivity.
  - vm_compute; reflexivity.
Defined.

(** ** A window size that is not positive *)

Lemma sma_run_never_completes (W : Z) (a : cumulative_average_t) (xs : list double) :
  W <= 0 ->
  Z.of_nat (length xs) <= Long.LONG_MAX ->
  sma_run (mk_simple_moving_average cma0 a W) xs =
  mk_simple_moving_average (cma_run cma0 xs) a W.
Proof.
  intros HW. induction xs as [|x xs IH] using rev_ind; intros Hn.
  - reflexivity.
  - rewrite length_app in Hn. simpl in Hn.
    rewrite sma_run_snoc, IH by lia.
    rewrite sma_step_incomplete; cbn [current_window simple_average window];
      rewrite <- cma_run_snoc; [reflexivity|].
    rewrite count_cma_run; rewrite ?length_app; simpl; lia.
Qed.

Lemma simple_moving_average_value (x : double) (s : simple_moving_average_t) :
  fst (simple_moving_average x s) = average (simple_average (sma_step s x)).
Proof.
  unfold sma_step. rewrite simple_moving_average_eq. cbv zeta.
  destruct (count (cma_step (current_window s) x) =? window s); reflexivity.
Qed.

(** C10. The argument of [-W] is stored as [atol] returns it.  When it is
    zero or negative (and the samples are no more than [LONG_MAX], so that
    the window counter has not overflowed), no update completes a window:
    after the update the window counter differs from the window size,
    [simple_average] is still in its reset state, the update returns [0],
    and the final output of the moving-average mode is the line [0.0]. *)
Theorem sma_nonpositive_window (atol : string -> Z) (optarg : string)
  (fn : option string) (pn : string) (m : runtime_mode_t) (sh W0 : Z)
  (xs ys : list double) (x : double) (l : locals) (fuel : nat) :
  atol optarg <= 0 ->
  Z.of_nat (length xs) < Long.LONG_MAX ->
  Z.of_nat (length ys) <= Long.LONG_MAX ->
  (length ys < fuel)%nat ->
  let W := atol optarg in
  let st := sma_run (snd (sma_reset W (sma_state l))) xs in
  let r := simple_moving_average x st in
  parse_argv atol (mk_runtime_flags fn pn m sh W0) [(SET_WINDOW_SIZE, optarg)] [] =
    inr (mk_runtime_flags fn pn m sh W) /\
  count (current_window (snd r)) <> W /\
  simple_average (snd r) = snd (cma_reset (simple_average (sma_state l))) /\
  fst r = Double.zero /\
  main atol [(SET_MODE, "SMA"%string); (SET_WINDOW_SIZE, optarg)] [] (map Num ys) l fuel =
    Exit 0 [Double.zero].
Proof.
  intros HW Hx Hy Hf. cbv zeta.
  split; [reflexivity|].
  assert (Hst : forall zs, Z.of_nat (length zs) <= Long.LONG_MAX ->
            sma_run (snd (sma_reset (atol optarg) (sma_state l))) zs =
            mk_simple_moving_average (cma_run cma0 zs) cma0 (atol optarg)).
  { intros zs Hz. rewrite sma_reset_eq. cbn [snd].
    now apply sma_run_never_completes. }
  assert (Hx' : Z.of_nat (length (xs ++ [x])) <= Long.LONG_MAX)
    by (rewrite length_app; simpl; lia).
  rewrite simple_moving_average_value.
  fold (sma_step (sma_run (snd (sma_reset (atol optarg) (sma_state l))) xs) x).
  rewrite <- sma_run_snoc, (Hst _ Hx').
  cbn [current_window simple_average average cma0].
  repeat split.
  - rewrite count_cma_run by (simpl; lia).
    rewrite length_app. simpl. lia.
  - change (main atol [(SET_MODE, "SMA"%string); (SET_WINDOW_SIZE, optarg)] []
              (map Num ys) l fuel)
      with (run_mode (mk_runtime_flags None "avg" SIMPLE_MOVING_AVERAGE 0 (atol optarg))
              (map Num ys) l fuel).
    rewrite sma_final_output by exact Hf.
    rewrite (Hst _ Hy), sma_eq. reflexivity.
Qed.

Lemma sma_nonpositive_window_witness :
  let atol := fun _ : string => -3 in
  let optarg := "-3"%string in
  let xs := map Double.of_long [1; 2; 3] in
  let ys := map Double.of_long [1; 2; 3; 4; 5] in
  let x := Double.of_long 4 in
  let l := mk_locals cma0 (mk_simple_moving_average cma0 cma0 0) Double.zero in
  let W := atol optarg in
  let st := sma_run (snd (sma_reset W (sma_state l))) xs in
  let r := simple_moving_average x st in
  atol optarg <= 0 /\
  Z.of_nat (length xs) < Long.LONG_MAX /\
  Z.of_nat (length ys) <= Long.LONG_MAX /\
  (length ys < 6)%nat /\
  parse_argv atol (mk_runtime_flags None "avg" SIMPLE_MOVING_AVERAGE 0 10)
    [(SET_WINDOW_SIZE, optarg)] [] =
    inr (mk_runtime_flags None "avg" SIMPLE_MOVING_AVERAGE 0 W) /\
  count (current_window (snd r)) <> W /\
  simple_average (snd r) = snd (cma_reset (simple_average (sma_state l))) /\
  fst r = Double.zero /\
  main atol [(SET_MODE, "SMA"%string); (SET_WINDOW_SIZE, optarg)] [] (map Num ys) l 6 =
    Exit 0 [Double.zero].
Proof.
  split; [vm_compute; discriminate|].
  split; [reflexivity|].
  split; [vm_compute; discriminate|].
  split; [simpl; lia|].
  apply (sma_nonpositive_window (fun _ : string => -3) "-3"%string None "avg"%string
           SIMPLE_MOVING_AVERAGE 0 10
           (map Double.of_long [1; 2; 3]) (map Double.of_long [1; 2; 3; 4; 5])
           (Double.of_long 4)
           (mk_locals cma0 (mk_simple_moving_average cma0 cma0 0) Double.zero) 6%nat).
  - vm_compute; discriminate.
  - reflexivity.
  - vm_compute; discriminate.
  - simpl; lia.
Defined.

(** ** A malformed token in the stream *)

Lemma cma_loop_bad (rest : list token) (fuel : nat) :
  forall (x : double) (s : cumulative_average_t) (out : list double),
  cma_loop fuel (Bad :: rest) x s out = Unfinished out.
Proof.
  induction fuel as [|fuel IH]; intros x s out; [reflexivity|].
  simpl. apply IH.
Qed.

Lemma cma_loop_stuck (rest : list token) (xs : list double) :
  forall (fuel : nat) (x : double) (s : cumulative_average_t) (out : list double),
  cma_loop fuel (map Num xs ++ Bad :: rest) x s out = Unfinished out.
Proof.
  induction xs as [|v xs IH]; intros fuel x s out.
  - apply cma_loop_bad.
  - destruct fuel as [|fuel]; [reflexivity|]. simpl. apply IH.
Qed.

Lemma cma_loop_show_bad (rest : list token) (fuel : nat) :
  forall (x : double) (s : cumulative_average_t) (out : list double),
  cma_loop_show fuel (Bad :: rest) x s out =
  Unfinished (out ++ cma_trace s (repeat x fuel)).
Proof.
  induction fuel as [|fuel IH]; intros x s out.
  - simpl. now rewrite app_nil_r.
  - simpl. rewrite IH, <- app_assoc. reflexivity.
Qed.

(** One line for every unit of fuel. *)
Lemma cma_loop_show_stuck (rest : list token) (xs : list double) :
  forall (fuel : nat) (x : double) (s : cumulative_average_t) (out : list double),
  exists out' : list double,
    cma_loop_show fuel (map Num xs ++ Bad :: rest) x s out = Unfinished out' /\
    length out' = (length out + fuel)%nat.
Proof.
  induction xs as [|v xs IH]; intros fuel x s out.
  - eexists. split; [apply cma_loop_show_bad|].
    rewrite length_app, length_cma_trace, repeat_length. reflexivity.
  - destruct fuel as [|fuel]; [exists out; split; [reflexivity | lia]|].
    simpl.
    destruct (IH fuel v (cma_step s v) (out ++ [average (cma_step s v)]))
      as (out' & E & L).
    exists out'. split; [exact E|].
    rewrite L, length_app. simpl. lia.
Qed.

Lemma sma_loop_bad (f : runtime_flags_t) (rest : list token) (fuel : nat) :
  forall (x : double) (v : Z * simple_moving_average_t * list double),
  sma_loop f fuel (Bad :: rest) x v =
  Unfinished (snd (sma_drive f v (repeat x fuel))).
Proof.
  induction fuel as [|fuel IH]; intros x v; [reflexivity|].
  simpl. apply IH.
Qed.

Lemma sma_loop_stuck (f : runtime_flags_t) (rest : list token) (xs : list double) :
  forall (fuel : nat) (x : double) (v : Z * simple_moving_average_t * list double),
  exists out' : list double,
    sma_loop f fuel (map Num xs ++ Bad :: rest) x v = Unfinished out'.
Proof.
  induction xs as [|y xs IH]; intros fuel x v.
  - eexists. apply sma_loop_bad.
  - destruct fuel as [|fuel]; [eexists; reflexivity|]. simpl. apply IH.
Qed.

Lemma cma_final_stuck (fn : option string) (pn : string) (W : Z)
  (xs : list double) (rest : list token) (l : locals) (fuel : nat) :
  run_mode (mk_runtime_flags fn pn CUMULATIVE_AVERAGE 0 W)
    (map Num xs ++ Bad :: rest) l fuel = Running [].
Proof.
  unfold run_mode. cbn [runtime_mode show_intermediates Z.eqb negb].
  rewrite cma_loop_stuck. reflexivity.
Qed.

(** C3. A malformed token does not end the run as the end of the stream
    does.  [fscanf] reports it with the return value 0, which is not [EOF],
    and leaves the token in the stream: the loop goes on, feeding the
    previous value of [x] to the averager again, and meets the same token at
    every later call.
    Whatever samples precede the token and whatever follows it, no amount of
    fuel brings [run_mode] to its exit, in either mode, while the same input
    cut before the token ends with the final line.  With intermediates
    shown, one more line is printed for every unit of fuel: after
    [1 2 abc] the averages of [1 2 2 2 ...]. *)
Theorem malformed_token_never_ends (fn : option string) (pn : string) (sh W : Z)
  (xs : list double) (rest : list token) (l : locals) (fuel : nat) :
  run_mode (mk_runtime_flags fn pn CUMULATIVE_AVERAGE 0 W)
    (map Num xs ++ Bad :: rest) l fuel = Running [] /\
  run_mode (mk_runtime_flags fn pn CUMULATIVE_AVERAGE 0 W)
    (map Num xs) l (S (length xs)) = Exit 0 [average (cma_run cma0 xs)] /\
  (exists out : list double,
     run_mode (mk_runtime_flags fn pn CUMULATIVE_AVERAGE sh W)
       (map Num xs ++ Bad :: rest) l fuel = Running out /\
     (sh <> 0 -> length out = fuel)) /\
  (exists out : list double,
     run_mode (mk_runtime_flags fn pn SIMPLE_MOVING_AVERAGE sh W)
       (map Num xs ++ Bad :: rest) l fuel = Running out) /\
  run_mode (mk_runtime_flags None "avg" CUMULATIVE_AVERAGE 0 10)
    [Num (Double.of_long 1); Num (Double.of_long 2)] l 3 =
    Exit 0 [Double.dyadic 3 (-1)] /\
  run_mode (mk_runtime_flags None "avg" CUMULATIVE_AVERAGE 0 10)
    [Num (Double.of_long 1); Num (Double.of_long 2); Bad] l fuel = Running [] /\
  run_mode (mk_runtime_flags None "avg" CUMULATIVE_AVERAGE 1 10)
    [Num (Double.of_long 1); Num (Double.of_long 2)] l 3 =
    Exit 0 [Double.of_long 1; Double.dyadic 3 (-1)] /\
  run_mode (mk_runtime_flags None "avg" CUMULATIVE_AVERAGE 1 10)
    [Num (Double.of_long 1); Num (Double.of_long 2); Bad] l 5 =
    Running [Double.of_long 1;
             Double.dyadic 3 (-1);
             Double.div (Double.of_long 5) (Double.of_long 3);
             Double.div (Double.of_long 7) (Double.of_long 4);
             Double.div (Double.of_long 9) (Double.of_long 5)].
Proof.
  split; [apply cma_final_stuck|].
  split.
  { unfold run_mode. cbn [runtime_mode show_intermediates Z.eqb negb].
    rewrite cma_loop_num by lia. reflexivity. }
  split.
  { unfold run_mode. cbn [runtime_mode show_intermediates].
    destruct (Z.eqb_spec sh 0) as [Hz|Hz]; cbn [negb].
    - exists []. rewrite cma_loop_stuck. split; [reflexivity | contradiction].
    - destruct (cma_loop_show_stuck rest xs fuel (x_init l)
                  (snd (cma_reset (cma_state l))) []) as (out & E & L).
      exists out. rewrite E. split; [reflexivity | intros _; exact L]. }
  split.
  { unfold run_mode. cbn [runtime_mode].
    destruct (sma_loop_stuck (mk_runtime_flags fn pn SIMPLE_MOVING_AVERAGE sh W) rest xs
                fuel (x_init l)
                (0, snd (sma_reset W (sma_state l)), [])) as [out E].
    exists out. cbn [window_size]. rewrite E. reflexivity. }
  split; [vm_compute; reflexivity|].
  split.
  { apply (cma_final_stuck None "avg" 10 [Double.of_long 1; Double.of_long 2] [] l fuel). }
  split; vm_compute; reflexivity.
Qed.

(** * Further properties of the code *)

(** ** Mode names and the option loop *)

(** X1. [lookup_runtime_mode] knows exactly the two names [CMA] and [SMA],
    in upper case; every other string is the unknown mode. *)
Theorem lookup_runtime_mode_names (s : string) :
  (lookup_runtime_mode s = CUMULATIVE_AVERAGE <-> s = "CMA"%string) /\
  (lookup_runtime_mode s = SIMPLE_MOVING_AVERAGE <-> s = "SMA"%string) /\
  (lookup_runtime_mode s = UNKNOWN_RUNTIME_MODE <->
   s <> "CMA"%string /\ s <> "SMA"%string).
Proof.
  unfold lookup_runtime_mode, runtime_modes. cbn [lookup_in mode id].
  destruct (String.eqb_spec "CMA" s) as [E1|N1];
    [|destruct (String.eqb_spec "SMA" s) as [E2|N2]]; subst;
    repeat split; try congruence; try discriminate;
    try (intros [H1 H2]; congruence).
Qed.

Arguments lookup_runtime_mode : simpl never.

Lemma parse_options_goes_on (atol : string -> Z) (opts : list (Ascii.ascii * string)) :
  forall f : runtime_flags_t,
  forallb goes_on opts = true ->
  parse_options atol f opts = inr (flags_after atol f opts).
Proof.
  induction opts as [|[c a] opts IH]; intros f H.
  - destruct f; reflexivity.
  - cbn [forallb] in H. apply andb_prop in H. destruct H as [Ho Hr].
    unfold goes_on, stops in Ho. cbn [parse_options].
    destruct (Ascii.eqb_spec c SET_MODE) as [->|Nm].
    + destruct (lookup_runtime_mode a) eqn:Em; try discriminate;
        rewrite (IH _ Hr); unfold flags_after; cbn [last_arg existsb fst];
        cbn [data_filename program_name runtime_mode show_intermediates window_size];
        destruct (last_arg SET_MODE opts), (last_arg SET_WINDOW_SIZE opts);
        cbn; rewrite ?Em; reflexivity.
    + destruct (Ascii.eqb_spec c SET_WINDOW_SIZE) as [->|Nw].
      * rewrite (IH _ Hr); unfold flags_after; cbn [last_arg existsb fst];
          cbn [data_filename program_name runtime_mode show_intermediates window_size];
          destruct (last_arg SET_MODE opts), (last_arg SET_WINDOW_SIZE opts);
          cbn; reflexivity.
      * destruct (Ascii.eqb_spec c SHOW_HELP) as [->|Nh]; [discriminate|].
        destruct (Ascii.eqb_spec c SHOW_INTERMEDIATES) as [->|Ni];
          [|destruct (Ascii.eqb_spec c SHOW_VERSION); discriminate].
        rewrite (IH _ Hr); unfold flags_after; cbn [last_arg existsb fst];
          cbn [data_filename program_name runtime_mode show_intermediates window_size];
          destruct (last_arg SET_MODE opts), (last_arg SET_WINDOW_SIZE opts);
          cbn; destruct (existsb _ opts); reflexivity.
Qed.

(** X2. When no option stops the loop, [parse_argv] returns flags in which
    the last [-m] and the last [-W] have won, [-I] is set if it occurs
    anywhere, and the data file is the operand when there is exactly one;
    [main] then runs the [switch] on those flags. *)
Theorem main_options (atol : string -> Z) (f : runtime_flags_t)
  (opts : list (Ascii.ascii * string)) (operands : list string)
  (inp : list token) (l : locals) (fuel : nat) :
  forallb goes_on opts = true ->
  parse_argv atol f opts operands =
    inr (with_operands (flags_after atol f opts) operands) /\
  main atol opts operands inp l fuel =
    run_mode
      (with_operands
         (flags_after atol (mk_runtime_flags None "avg" CUMULATIVE_AVERAGE 0 10) opts)
         operands) inp l fuel.
Proof.
  intros H.
  assert (P : forall g, parse_argv atol g opts operands =
                        inr (with_operands (flags_after atol g opts) operands)).
  { intros g. unfold parse_argv. rewrite parse_options_goes_on by exact H.
    unfold with_operands. destruct operands as [|n [|n' r]]; reflexivity. }
  split; [apply P|]. unfold main. rewrite P. reflexivity.
Qed.

Lemma main_options_witness :
  let atol := fun s : string => if String.eqb s "4" then 4 else 7 in
  let opts := [(SET_WINDOW_SIZE, "7"%string); (SET_MODE, "CMA"%string);
               (SHOW_INTERMEDIATES, ""%string); (SET_MODE, "SMA"%string);
               (SET_WINDOW_SIZE, "4"%string)] in
  let f := mk_runtime_flags None "avg" CUMULATIVE_AVERAGE 0 10 in
  let l := mk_locals cma0 (mk_simple_moving_average cma0 cma0 0) Double.zero in
  forallb goes_on opts = true /\
  parse_argv atol f opts ["data.txt"%string] =
    inr (mk_runtime_flags (Some "data.txt"%string) "avg" SIMPLE_MOVING_AVERAGE 1 4) /\
  main atol opts ["data.txt"%string] [] l 1 =
    run_mode (mk_runtime_flags (Some "data.txt"%string) "avg" SIMPLE_MOVING_AVERAGE 1 4)
      [] l 1.
Proof.
  split; [reflexivity|].
  apply (main_options (fun s : string => if String.eqb s "4" then 4 else 7)
           (mk_runtime_flags None "avg" CUMULATIVE_AVERAGE 0 10)
           [(SET_WINDOW_SIZE, "7"%string); (SET_MODE, "CMA"%string);
            (SHOW_INTERMEDIATES, ""%string); (SET_MODE, "SMA"%string);
            (SET_WINDOW_SIZE, "4"%string)]
           ["data.txt"%string] []
           (mk_locals cma0 (mk_simple_moving_average cma0 cma0 0) Double.zero) 1%nat).
  reflexivity.
Defined.

Lemma parse_options_stops (atol : string -> Z) (pre : list (Ascii.ascii * string)) :
  forall (f : runtime_flags_t) (o : Ascii.ascii * string)
         (post : list (Ascii.ascii * string)) (st : Z),
  forallb goes_on pre = true ->
  stops o = Some st ->
  parse_options atol f (pre ++ o :: post) = inl st.
Proof.
  induction pre as [|[c a] pre IH]; intros f o post st Hp Ho.
  - destruct o as [c a]. unfold stops in Ho. cbn [app parse_options].
    destruct (Ascii.eqb c SET_MODE).
    { destruct (lookup_runtime_mode a); congruence. }
    destruct (Ascii.eqb c SET_WINDOW_SIZE); [discriminate|].
    destruct (Ascii.eqb c SHOW_HELP); [congruence|].
    destruct (Ascii.eqb c SHOW_INTERMEDIATES); [discriminate|].
    destruct (Ascii.eqb c SHOW_VERSION); congruence.
  - cbn [forallb] in Hp. apply andb_prop in Hp. destruct Hp as [Hc Hr].
    unfold goes_on, stops in Hc. cbn [app parse_options].
    destruct (Ascii.eqb c SET_MODE).
    { destruct (lookup_runtime_mode a); try discriminate; now apply IH. }
    destruct (Ascii.eqb c SET_WINDOW_SIZE); [now apply IH|].
    destruct (Ascii.eqb c SHOW_HELP); [discriminate|].
    destruct (Ascii.eqb c SHOW_INTERMEDIATES); [now apply IH|].
    destruct (Ascii.eqb c SHOW_VERSION); discriminate.
Qed.

Lemma main_stops (atol : string -> Z) (pre post : list (Ascii.ascii * string))
  (o : Ascii.ascii * string) (st : Z) (operands : list string)
  (inp : list token) (l : locals) (fuel : nat) :
  forallb goes_on pre = true ->
  stops o = Some st ->
  main atol (pre ++ o :: post) operands inp l fuel = Exit st [].
Proof.
  intros Hp Ho. unfold main, parse_argv.
  rewrite (parse_options_stops atol pre _ o post st Hp Ho). reflexivity.
Qed.

(** X3. The first option that stops the loop decides the run, whatever
    follows it on the command line and whatever the input holds: an unknown
    mode name or an unrecognised option ends [main] with [EXIT_FAILURE],
    [-h] and [-V] end it with [EXIT_SUCCESS]; no sample is read (no fuel is
    needed) and no average is printed. *)
Theorem main_fails_fast (atol : string -> Z) (pre post : list (Ascii.ascii * string))
  (c : Ascii.ascii) (a : string) (operands : list string)
  (inp : list token) (l : locals) (fuel : nat) :
  forallb goes_on pre = true ->
  (a <> "CMA"%string -> a <> "SMA"%string ->
   main atol (pre ++ (SET_MODE, a) :: post) operands inp l fuel = Exit EXIT_FAILURE []) /\
  main atol (pre ++ (SHOW_HELP, a) :: post) operands inp l fuel = Exit EXIT_SUCCESS [] /\
  main atol (pre ++ (SHOW_VERSION, a) :: post) operands inp l fuel = Exit EXIT_SUCCESS [] /\
  (c <> SET_MODE -> c <> SET_WINDOW_SIZE -> c <> SHOW_HELP ->
   c <> SHOW_INTERMEDIATES -> c <> SHOW_VERSION ->
   main atol (pre ++ (c, a) :: post) operands inp l fuel = Exit EXIT_FAILURE []).
Proof.
  intros Hp. repeat split.
  - intros N1 N2. apply main_stops; [exact Hp|]. unfold stops.
    cbn [Ascii.eqb SET_MODE Bool.eqb].
    destruct (proj2 (proj2 (lookup_runtime_mode_names a))) as [_ E].
    rewrite (E (conj N1 N2)). reflexivity.
  - apply main_stops; [exact Hp | reflexivity].
  - apply main_stops; [exact Hp | reflexivity].
  - intros Nm Nw Nh Ni Nv. apply main_stops; [exact Hp|]. unfold stops.
    destruct (Ascii.eqb_spec c SET_MODE); [contradiction|].
    destruct (Ascii.eqb_spec c SET_WINDOW_SIZE); [contradiction|].
    destruct (Ascii.eqb_spec c SHOW_HELP); [contradiction|].
    destruct (Ascii.eqb_spec c SHOW_INTERMEDIATES); [contradiction|].
    destruct (Ascii.eqb_spec c SHOW_VERSION); [contradiction|]. reflexivity.
Qed.

Lemma main_fails_fast_witness :
  let atol := fun _ : string => 3 in
  let pre := [(SHOW_INTERMEDIATES, ""%string); (SET_WINDOW_SIZE, "3"%string)] in
  let post := [(SET_MODE, "SMA"%string)] in
  let inp := [Num (Double.of_long 1); Bad] in
  let l := mk_locals cma0 (mk_simple_moving_average cma0 cma0 0) Double.zero in
  forallb goes_on pre = true /\
  ("cma"%string <> "CMA"%string -> "cma"%string <> "SMA"%string ->
   main atol (pre ++ (SET_MODE, "cma"%string) :: post) [] inp l 0 = Exit EXIT_FAILURE []) /\
  main atol (pre ++ (SHOW_HELP, "cma"%string) :: post) [] inp l 0 = Exit EXIT_SUCCESS [] /\
  main atol (pre ++ (SHOW_VERSION, "cma"%string) :: post) [] inp l 0 =
    Exit EXIT_SUCCESS [] /\
  ("?"%char <> SET_MODE -> "?"%char <> SET_WINDOW_SIZE -> "?"%char <> SHOW_HELP ->
   "?"%char <> SHOW_INTERMEDIATES -> "?"%char <> SHOW_VERSION ->
   main atol (pre ++ ("?"%char, "cma"%string) :: post) [] inp l 0 = Exit EXIT_FAILURE []).
Proof.
  split; [reflexivity|].
  apply (main_fails_fast (fun _ : string => 3)
           [(SHOW_INTERMEDIATES, ""%string); (SET_WINDOW_SIZE, "3"%string)]
           [(SET_MODE, "SMA"%string)] "?"%char "cma"%string []
           [Num (Double.of_long 1); Bad]
           (mk_locals cma0 (mk_simple_moving_average cma0 cma0 0) Double.zero) 0%nat).
  reflexivity.
Defined.

Lemma parse_options_known (atol : string -> Z) (opts : list (Ascii.ascii * string)) :
  forall f f' : runtime_flags_t,
  runtime_mode f <> UNKNOWN_RUNTIME_MODE ->
  parse_options atol f opts = inr f' ->
  runtime_mode f' <> UNKNOWN_RUNTIME_MODE.
Proof.
  induction opts as [|[c a] opts IH]; intros f f' Hf H.
  - cbn in H. congruence.
  - cbn [parse_options] in H.
    destruct (Ascii.eqb c SET_MODE).
    { destruct (lookup_runtime_mode a) eqn:Em; try discriminate;
        (eapply IH; [|exact H]); cbn; discriminate. }
    destruct (Ascii.eqb c SET_WINDOW_SIZE); [eapply IH; [|exact H]; exact Hf|].
    destruct (Ascii.eqb c SHOW_HELP); [discriminate|].
    destruct (Ascii.eqb c SHOW_INTERMEDIATES); [eapply IH; [|exact H]; exact Hf|].
    destruct (Ascii.eqb c SHOW_VERSION); discriminate.
Qed.

(** X4. The [UNKNOWN_RUNTIME_MODE] case of [main]'s [switch] is never taken:
    [parse_argv] hands back a known mode whenever it is given one, so an
    exit of [main] is either the [exit] of [parse_argv], with nothing
    printed, or the normal end of one of the two averaging modes, with
    status 0. *)
Theorem main_exit_origin (atol : string -> Z) (opts : list (Ascii.ascii * string))
  (operands : list string) (inp : list token) (l : locals) (fuel : nat)
  (st : Z) (out : list double) :
  main atol opts operands inp l fuel = Exit st out ->
  (parse_argv atol (mk_runtime_flags None "avg" CUMULATIVE_AVERAGE 0 10) opts operands =
     inl st /\ out = []) \/
  (st = 0 /\
   exists f : runtime_flags_t,
     parse_argv atol (mk_runtime_flags None "avg" CUMULATIVE_AVERAGE 0 10) opts operands =
       inr f /\
     (runtime_mode f = CUMULATIVE_AVERAGE \/ runtime_mode f = SIMPLE_MOVING_AVERAGE) /\
     run_mode f inp l fuel = Exit 0 out).
Proof.
  unfold main. intros H.
  destruct (parse_argv atol _ opts operands) as [s|f] eqn:P.
  - left. injection H as <- <-. split; reflexivity.
  - right.
    assert (K : runtime_mode f <> UNKNOWN_RUNTIME_MODE).
    { unfold parse_argv in P.
      destruct (parse_options atol _ opts) as [s|g] eqn:Q; [discriminate|].
      assert (Kg : runtime_mode g <> UNKNOWN_RUNTIME_MODE).
      { eapply parse_options_known; [|exact Q]. cbn. discriminate. }
      destruct operands as [|n [|n' r]]; injection P as <-; exact Kg. }
    assert (S0 : st = 0).
    { unfold run_mode in H. destruct (runtime_mode f); [contradiction| |].
      - destruct (negb (show_intermediates f =? 0)).
        + destruct (cma_loop_show _ _ _ _ _); congruence.
        + destruct (cma_loop _ _ _ _ _); congruence.
      - destruct (sma_loop _ _ _ _ _) as [[c s] o|o]; [|discriminate].
        destruct (negb (negb (show_intermediates f =? 0))); congruence. }
    subst st. split; [reflexivity|]. exists f. split; [reflexivity|].
    split; [|exact H].
    destruct (runtime_mode f); [contradiction | left | right]; reflexivity.
Qed.

Lemma main_exit_origin_witness :
  let atol := fun _ : string => 2 in
  let opts := [(SET_MODE, "SMA"%string); (SET_WINDOW_SIZE, "2"%string)] in
  let inp := map Num (map Double.of_long [1; 3]) in
  let l := mk_locals cma0 (mk_simple_moving_average cma0 cma0 0) Double.zero in
  main atol opts [] inp l 3 = Exit 0 [Double.of_long 2] /\
  ((parse_argv atol (mk_runtime_flags None "avg" CUMULATIVE_AVERAGE 0 10) opts [] =
      inl 0 /\ [Double.of_long 2] = []) \/
   (0 = 0 /\
    exists f : runtime_flags_t,
      parse_argv atol (mk_runtime_flags None "avg" CUMULATIVE_AVERAGE 0 10) opts [] =
        inr f /\
      (runtime_mode f = CUMULATIVE_AVERAGE \/ runtime_mode f = SIMPLE_MOVING_AVERAGE) /\
      run_mode f inp l 3 = Exit 0 [Double.of_long 2])).
Proof.
  split; [vm_compute; reflexivity|].
  apply (main_exit_origin (fun _ : string => 2)
           [(SET_MODE, "SMA"%string); (SET_WINDOW_SIZE, "2"%string)] []
           (map Num (map Double.of_long [1; 3]))
           (mk_locals cma0 (mk_simple_moving_average cma0 cma0 0) Double.zero) 3%nat
           0 [Double.of_long 2]).
  vm_compute; reflexivity.
Defined.

(** ** Reset and the counters *)

Lemma since_reset_snoc (ops : list cma_op) (o : cma_op) :
  since_reset (ops ++ [o]) =
  match o with
  | op_update x => since_reset ops ++ [x]
  | op_reset => []
  end.
Proof. unfold since_reset. rewrite fold_left_app. reflexivity. Qed.

Lemma cma_exec_since_reset (ops : list cma_op) :
  cma_exec cma0 ops = cma_run cma0 (since_reset ops).
Proof.
  induction ops as [|o ops IH] using rev_ind; [reflexivity|].
  rewrite cma_exec_snoc, since_reset_snoc, IH. destruct o as [x|].
  - rewrite cma_apply_update, cma_run_snoc. reflexivity.
  - reflexivity.
Qed.

(** X5. A reset erases the history of a cumulative averager: after any
    operations, a reset and further operations, the state is the one a
    fresh averager has after the samples fed since the last reset; its
    [count] is their number, its [total] their sum and, if there are any,
    its [average] their mean (their number within the range of [long]). *)
Theorem cma_reset_erases_history (s : cumulative_average_t)
  (before after : list cma_op) :
  Z.of_nat (length (since_reset after)) <= Long.LONG_MAX ->
  let s' := cma_exec s (before ++ op_reset :: after) in
  s' = cma_run cma0 (since_reset after) /\
  count s' = Z.of_nat (length (since_reset after)) /\
  total s' = fsum (since_reset after) /\
  (since_reset after <> [] -> average s' = mean (since_reset after)).
Proof.
  intros Hn. cbv zeta.
  assert (E : cma_exec s (before ++ op_reset :: after) =
              cma_run cma0 (since_reset after)).
  { unfold cma_exec. rewrite fold_left_app. cbn [fold_left].
    rewrite cma_apply_reset. apply cma_exec_since_reset. }
  rewrite E, cma_run_cma0 by exact Hn. cbn [count total average].
  repeat split. intros Hne. destruct (since_reset after); [contradiction | reflexivity].
Qed.

Lemma cma_reset_erases_history_witness :
  let s := mk_cumulative_average (Double.of_long 9) (Double.of_long 18) 2 in
  let before := [op_update (Double.of_long 5)] in
  let after := [op_update (Double.of_long 1); op_reset; op_update (Double.of_long 2);
                op_update (Double.of_long 4)] in
  let s' := cma_exec s (before ++ op_reset :: after) in
  Z.of_nat (length (since_reset after)) <= Long.LONG_MAX /\
  s' = cma_run cma0 (since_reset after) /\
  count s' = Z.of_nat (length (since_reset after)) /\
  total s' = fsum (since_reset after) /\
  (since_reset after <> [] -> average s' = mean (since_reset after)).
Proof.
  split; [vm_compute; discriminate|].
  apply (cma_reset_erases_history
           (mk_cumulative_average (Double.of_long 9) (Double.of_long 18) 2)
           [op_update (Double.of_long 5)]
           [op_update (Double.of_long 1); op_reset; op_update (Double.of_long 2);
            op_update (Double.of_long 4)]).
  vm_compute; discriminate.
Defined.

Lemma length_concat_windows (W : Z) (ws : list (list double)) :
  Forall (fun w => Z.of_nat (length w) = W) ws ->
  Z.of_nat (length (concat ws)) = W * Z.of_nat (length ws).
Proof.
  induction 1 as [|w ws Hw _ IH]; [simpl; lia|].
  simpl concat. rewrite length_app. simpl length. lia.
Qed.

(** X6. With window size [W > 0], after [n] samples the window counter is
    [n mod W], the number of window means folded into [simple_average] is
    [n / W] (within the range of [long]), and the window size stored by
    [sma_reset] is unchanged. *)
Theorem sma_counters (W : Z) (s : simple_moving_average_t) (xs : list double) :
  0 < W <= Long.LONG_MAX ->
  Z.of_nat (length xs) / W <= Long.LONG_MAX ->
  let st := sma_run (snd (sma_reset W s)) xs in
  count (current_window st) = Z.of_nat (length xs) mod W /\
  count (simple_average st) = Z.of_nat (length xs) / W /\
  window st = W.
Proof.
  intros HW Hq. cbv zeta.
  destruct (split_windows W xs) as (ws & tail & E & Hws & Ht); [lia|].
  assert (Hn : Z.of_nat (length xs) = W * Z.of_nat (length ws) + Z.of_nat (length tail)).
  { rewrite E, length_app, Nat2Z.inj_add, (length_concat_windows W) by exact Hws.
    reflexivity. }
  assert (Hd : Z.of_nat (length xs) / W = Z.of_nat (length ws)).
  { symmetry. apply Z.div_unique with (Z.of_nat (length tail)); lia. }
  assert (Hm : Z.of_nat (length xs) mod W = Z.of_nat (length tail)).
  { symmetry. apply Z.mod_unique with (Z.of_nat (length ws)); lia. }
  rewrite Hd in Hq. rewrite Hd, Hm. subst xs.
  rewrite sma_run_reset by assumption.
  cbn [current_window simple_average window].
  rewrite !count_cma_run; rewrite ?length_map; simpl; repeat split; lia.
Qed.

Lemma sma_counters_witness :
  let W := 3 in
  let s := mk_simple_moving_average cma0 cma0 0 in
  let xs := map Double.of_long [1; 2; 3; 4; 5; 6; 7; 8] in
  let st := sma_run (snd (sma_reset W s)) xs in
  0 < W <= Long.LONG_MAX /\
  Z.of_nat (length xs) / W <= Long.LONG_MAX /\
  count (current_window st) = Z.of_nat (length xs) mod W /\
  count (simple_average st) = Z.of_nat (length xs) / W /\
  window st = W.
Proof.
  assert (HW : 0 < 3 <= Long.LONG_MAX) by (split; vm_compute; congruence).
  split; [exact HW|].
  split; [vm_compute; discriminate|].
  apply (sma_counters 3 (mk_simple_moving_average cma0 cma0 0)
           (map Double.of_long [1; 2; 3; 4; 5; 6; 7; 8])).
  - exact HW.
  - vm_compute; discriminate.
Defined.

(** ** The two modes compared *)

Lemma cma_trace_cons (s : cumulative_average_t) (x : double) (xs : list double) :
  cma_trace s (x :: xs) = average (cma_step s x) :: cma_trace (cma_step s x) xs.
Proof. reflexivity. Qed.

Lemma cma_run_cons (s : cumulative_average_t) (x : double) (xs : list double) :
  cma_run s (x :: xs) = cma_run (cma_step s x) xs.
Proof. reflexivity. Qed.

Lemma cma_trace_snoc (xs : list double) (y : double) :
  forall s : cumulative_average_t,
  cma_trace s (xs ++ [y]) = cma_trace s xs ++ [average (cma_run s (xs ++ [y]))].
Proof.
  induction xs as [|x xs IH]; intros s; [reflexivity|].
  change ((x :: xs) ++ [y]) with (x :: (xs ++ [y])).
  rewrite !cma_trace_cons, cma_run_cons, IH. reflexivity.
Qed.

Lemma sma_body_window (f : runtime_flags_t) (tail : list double) (x : double)
  (a : cumulative_average_t) (out : list double) :
  0 < window_size f <= Long.LONG_MAX ->
  Z.of_nat (length tail) < window_size f ->
  sma_body f x
    (Z.of_nat (length tail),
     mk_simple_moving_average (cma_run cma0 tail) a (window_size f), out) =
  if Z.of_nat (length tail) + 1 =? window_size f
  then (0,
        mk_simple_moving_average cma0 (cma_step a (mean (tail ++ [x]))) (window_size f),
        if show_intermediates f =? 0 then out
        else out ++ [average (cma_step a (mean (tail ++ [x])))])
  else (Z.of_nat (length tail) + 1,
        mk_simple_moving_average (cma_run cma0 (tail ++ [x])) a (window_size f),
        out).
Proof.
  intros HW Ht. rewrite sma_body_eq.
  rewrite incr_in_range by (pose proof LONG_MIN_neg; lia).
  assert (Hc : count (cma_step (cma_run cma0 tail) x) = Z.of_nat (length tail) + 1).
  { rewrite <- cma_run_snoc, count_cma_run; rewrite ?length_app; simpl; lia. }
  destruct (Z.eqb_spec (Z.of_nat (length tail) + 1) (window_size f)) as [Hfull|Hpart].
  - rewrite sma_step_complete by (cbn [current_window window]; lia).
    cbn [current_window simple_average window andb].
    rewrite <- cma_run_snoc, average_cma_run;
      [|destruct tail; discriminate | rewrite length_app; simpl; lia].
    destruct (show_intermediates f =? 0); reflexivity.
  - rewrite sma_step_incomplete by (cbn [current_window window]; lia).
    cbn [current_window simple_average window andb].
    rewrite <- cma_run_snoc. reflexivity.
Qed.

Lemma sma_drive_tail (f : runtime_flags_t) (pre : list double)
  (a : cumulative_average_t) (out : list double) (tail : list double) :
  0 < window_size f <= Long.LONG_MAX ->
  sma_drive f (0, mk_simple_moving_average cma0 cma0 (window_size f), []) pre =
    (0, mk_simple_moving_average cma0 a (window_size f), out) ->
  Z.of_nat (length tail) < window_size f ->
  sma_drive f (0, mk_simple_moving_average cma0 cma0 (window_size f), []) (pre ++ tail) =
    (Z.of_nat (length tail),
     mk_simple_moving_average (cma_run cma0 tail) a (window_size f), out).
Proof.
  intros HW Hp. induction tail as [|x tail IH] using rev_ind; intros Ht.
  - rewrite app_nil_r. exact Hp.
  - rewrite length_app in Ht. simpl in Ht.
    rewrite app_assoc, sma_drive_snoc, IH by lia.
    rewrite sma_body_window by lia.
    destruct (Z.eqb_spec (Z.of_nat (length tail) + 1) (window_size f)); [lia|].
    rewrite length_app. simpl length. rewrite Nat2Z.inj_add. reflexivity.
Qed.

Lemma sma_drive_windows (f : runtime_flags_t) (ws : list (list double)) :
  0 < window_size f <= Long.LONG_MAX ->
  Forall (fun w => Z.of_nat (length w) = window_size f) ws ->
  sma_drive f (0, mk_simple_moving_average cma0 cma0 (window_size f), []) (concat ws) =
    (0,
     mk_simple_moving_average cma0 (cma_run cma0 (map mean ws)) (window_size f),
     if show_intermediates f =? 0 then [] else cma_trace cma0 (map mean ws)).
Proof.
  intros HW. induction ws as [|w ws IH] using rev_ind; intros Hws.
  - simpl. destruct (show_intermediates f =? 0); reflexivity.
  - apply Forall_app in Hws. destruct Hws as [Hws Hw].
    inversion Hw as [|? ? Hl _]; subst.
    destruct w as [|x w _] using rev_ind; [simpl in Hl; lia|].
    rewrite length_app in Hl. simpl in Hl.
    rewrite concat_app. simpl concat. rewrite app_nil_r, app_assoc, sma_drive_snoc.
    rewrite (sma_drive_tail f (concat ws) _ _ w HW (IH Hws)) by lia.
    rewrite sma_body_window by lia.
    destruct (Z.eqb_spec (Z.of_nat (length w) + 1) (window_size f)); [|lia].
    rewrite map_app. simpl map. rewrite cma_trace_snoc, <- cma_run_snoc.
    destruct (show_intermediates f =? 0); reflexivity.
Qed.

Lemma sma_mode_on_windows (fn : option string) (pn : string) (sh W W' : Z)
  (ws : list (list double)) (tail : list double) (l l' : locals) (fuel fuel' : nat) :
  0 < W <= Long.LONG_MAX ->
  Forall (fun w => Z.of_nat (length w) = W) ws ->
  Z.of_nat (length tail) < W ->
  (length (concat ws ++ tail) < fuel)%nat ->
  (length ws < fuel')%nat ->
  run_mode (mk_runtime_flags fn pn SIMPLE_MOVING_AVERAGE sh W)
    (map Num (concat ws ++ tail)) l fuel =
  run_mode (mk_runtime_flags fn pn CUMULATIVE_AVERAGE sh W')
    (map Num (map mean ws)) l' fuel'.
Proof.
  intros HW Hws Ht Hf Hf'. unfold run_mode.
  cbn [runtime_mode show_intermediates window_size].
  rewrite sma_loop_num by exact Hf. rewrite !sma_reset_eq, !cma_reset_eq. cbn [snd].
  assert (E : sma_drive (mk_runtime_flags fn pn SIMPLE_MOVING_AVERAGE sh W)
                (0, mk_simple_moving_average cma0 cma0 W, []) (concat ws ++ tail) =
              (Z.of_nat (length tail),
               mk_simple_moving_average (cma_run cma0 tail)
                 (cma_run cma0 (map mean ws)) W,
               if sh =? 0 then [] else cma_trace cma0 (map mean ws))).
  { apply (sma_drive_tail (mk_runtime_flags fn pn SIMPLE_MOVING_AVERAGE sh W));
      [exact HW | | exact Ht].
    apply (sma_drive_windows (mk_runtime_flags fn pn SIMPLE_MOVING_AVERAGE sh W));
      [exact HW | exact Hws]. }
  rewrite E. cbn [fst snd].
  destruct (sh =? 0); cbn [negb].
  - rewrite cma_loop_num by (rewrite length_map; exact Hf'). reflexivity.
  - rewrite cma_loop_show_num by (rewrite length_map; exact Hf'). reflexivity.
Qed.

(** X7. The moving-average mode is the cumulative-average mode applied to
    the window means: with window size [W > 0], on samples that make up the
    full windows [ws] and a shorter trailing part, it prints, with or
    without intermediates, exactly the lines that the cumulative-average
    mode prints on the list of the means of [ws]. *)
Theorem sma_mode_is_cma_of_means (fn : option string) (pn : string) (sh W W' : Z)
  (ws : list (list double)) (tail : list double) (l l' : locals) (fuel fuel' : nat) :
  0 < W <= Long.LONG_MAX ->
  Forall (fun w => Z.of_nat (length w) = W) ws ->
  Z.of_nat (length tail) < W ->
  (length (concat ws ++ tail) < fuel)%nat ->
  (length ws < fuel')%nat ->
  run_mode (mk_runtime_flags fn pn SIMPLE_MOVING_AVERAGE sh W)
    (map Num (concat ws ++ tail)) l fuel =
  run_mode (mk_runtime_flags fn pn CUMULATIVE_AVERAGE sh W')
    (map Num (map mean ws)) l' fuel'.
Proof. apply sma_mode_on_windows. Qed.

Lemma sma_mode_is_cma_of_means_witness :
  let ws := [map Double.of_long [1; 2]; map Double.of_long [5; 8];
             map Double.of_long [0; 3]] in
  let tail := map Double.of_long [9] in
  let l := mk_locals cma0 (mk_simple_moving_average cma0 cma0 0) Double.zero in
  0 < 2 <= Long.LONG_MAX /\
  Forall (fun w => Z.of_nat (length w) = 2) ws /\
  Z.of_nat (length tail) < 2 /\
  (length (concat ws ++ tail) < 8)%nat /\
  (length ws < 4)%nat /\
  run_mode (mk_runtime_flags None "avg" SIMPLE_MOVING_AVERAGE 1 2)
    (map Num (concat ws ++ tail)) l 8 =
  run_mode (mk_runtime_flags None "avg" CUMULATIVE_AVERAGE 1 10)
    (map Num (map mean ws)) l 4.
Proof.
  assert (HW : 0 < 2 <= Long.LONG_MAX) by (split; vm_compute; congruence).
  assert (Hws : Forall (fun w => Z.of_nat (length w) = 2)
                  [map Double.of_long [1; 2]; map Double.of_long [5; 8];
                   map Double.of_long [0; 3]])
    by (repeat constructor).
  split; [exact HW|].
  split; [exact Hws|].
  split; [reflexivity|].
  split; [simpl; lia|].
  split; [simpl; lia|].
  apply (sma_mode_is_cma_of_means None "avg" 1 2 10
           [map Double.of_long [1; 2]; map Double.of_long [5; 8];
            map Double.of_long [0; 3]]
           (map Double.of_long [9])
           (mk_locals cma0 (mk_simple_moving_average cma0 cma0 0) Double.zero)
           (mk_locals cma0 (mk_simple_moving_average cma0 cma0 0) Double.zero)
           8%nat 4%nat).
  - exact HW.
  - exact Hws.
  - reflexivity.
  - simpl; lia.
  - simpl; lia.
Defined.

Lemma last_cons_default (T : list double) :
  forall a d : double, last (a :: T) d = last T a.
Proof.
  induction T as [|b T IH]; intros a d; [reflexivity|].
  change (last (a :: b :: T) d) with (last (b :: T) d).
  rewrite (IH b d), (IH b a). reflexivity.
Qed.

Lemma last_cma_trace (xs : list double) :
  forall s : cumulative_average_t,
  last (cma_trace s xs) (average s) = average (cma_run s xs).
Proof.
  induction xs as [|x xs IH]; intros s; [reflexivity|].
  rewrite cma_trace_cons, cma_run_cons, last_cons_default. apply IH.
Qed.

Lemma sma_drive_last (f : runtime_flags_t) (s : simple_moving_average_t)
  (xs : list double) :
  show_intermediates f <> 0 ->
  average (simple_average
             (snd (fst (sma_drive f (0, snd (sma_reset (window_size f) s), []) xs)))) =
  last (snd (sma_drive f (0, snd (sma_reset (window_size f) s), []) xs)) Double.zero.
Proof.
  intros Hs. induction xs as [|x xs IH] using rev_ind; [reflexivity|].
  rewrite sma_drive_snoc.
  destruct (sma_drive_counter f xs 0 (snd (sma_reset (window_size f) s)) []
              eq_refl eq_refl) as [Hc Hw].
  destruct (sma_drive f (0, snd (sma_reset (window_size f) s), []) xs)
    as [[c st] out]. cbn [fst snd] in *.
  rewrite sma_body_eq. cbn [fst snd].
  destruct (Z.eqb_spec (show_intermediates f) 0) as [|_]; [contradiction|].
  rewrite sma_step_eq. cbv zeta. rewrite Hw.
  change (count (cma_step (current_window st) x))
    with (Long.incr (count (current_window st))).
  rewrite <- Hc.
  destruct (Long.incr c =? window_size f); cbn [andb negb simple_average].
  - rewrite last_last. reflexivity.
  - exact IH.
Qed.

(** X8. In both modes the line printed without [-I] is the last of the
    lines printed with [-I] on the same input, or [0.0] when [-I] prints
    none; this holds for every window size. *)
Theorem final_line_is_last_intermediate (fn : option string) (pn : string)
  (sh W : Z) (xs : list double) (l : locals) (fuel : nat) :
  sh <> 0 ->
  (length xs < fuel)%nat ->
  (exists out : list double,
     run_mode (mk_runtime_flags fn pn CUMULATIVE_AVERAGE sh W) (map Num xs) l fuel =
       Exit 0 out /\
     run_mode (mk_runtime_flags fn pn CUMULATIVE_AVERAGE 0 W) (map Num xs) l fuel =
       Exit 0 [last out Double.zero]) /\
  (exists out : list double,
     run_mode (mk_runtime_flags fn pn SIMPLE_MOVING_AVERAGE sh W) (map Num xs) l fuel =
       Exit 0 out /\
     run_mode (mk_runtime_flags fn pn SIMPLE_MOVING_AVERAGE 0 W) (map Num xs) l fuel =
       Exit 0 [last out Double.zero]).
Proof.
  intros Hs Hf. split.
  - exists (cma_trace cma0 xs). unfold run_mode.
    cbn [runtime_mode show_intermediates Z.eqb negb].
    destruct (Z.eqb_spec sh 0) as [|_]; [contradiction|]. cbn [negb].
    rewrite cma_reset_eq. cbn [snd].
    rewrite cma_loop_show_num, cma_loop_num by exact Hf.
    rewrite cma_eq. cbn [fst app]. rewrite <- last_cma_trace. split; reflexivity.
  - rewrite sma_final_output by exact Hf.
    unfold run_mode. cbn [runtime_mode show_intermediates window_size].
    rewrite sma_loop_num by exact Hf.
    pose proof (sma_drive_state (mk_runtime_flags fn pn SIMPLE_MOVING_AVERAGE sh W) xs
                  (0, snd (sma_reset W (sma_state l)), [])) as Hst.
    pose proof (sma_drive_last (mk_runtime_flags fn pn SIMPLE_MOVING_AVERAGE sh W)
                  (sma_state l) xs Hs) as Hl.
    cbn [fst snd window_size] in Hst, Hl.
    destruct (sma_drive _ _ xs) as [[c st] out]. cbn [fst snd] in *.
    destruct (Z.eqb_spec sh 0) as [|_]; [contradiction|]. cbn [negb].
    exists out. split; [reflexivity|].
    rewrite <- Hst, sma_eq. cbn [fst]. rewrite Hl. reflexivity.
Qed.

Lemma final_line_is_last_intermediate_witness :
  let xs := map Double.of_long [1; 2; 6; 7; 9] in
  let l := mk_locals cma0 (mk_simple_moving_average cma0 cma0 0) Double.zero in
  1 <> 0 /\
  (length xs < 6)%nat /\
  (exists out : list double,
     run_mode (mk_runtime_flags None "avg" CUMULATIVE_AVERAGE 1 2) (map Num xs) l 6 =
       Exit 0 out /\
     run_mode (mk_runtime_flags None "avg" CUMULATIVE_AVERAGE 0 2) (map Num xs) l 6 =
       Exit 0 [last out Double.zero]) /\
  (exists out : list double,
     run_mode (mk_runtime_flags None "avg" SIMPLE_MOVING_AVERAGE 1 2) (map Num xs) l 6 =
       Exit 0 out /\
     run_mode (mk_runtime_flags None "avg" SIMPLE_MOVING_AVERAGE 0 2) (map Num xs) l 6 =
       Exit 0 [last out Double.zero]).
Proof.
  split; [discriminate|].
  split; [simpl; lia|].
  apply (final_line_is_last_intermediate None "avg" 1 2
           (map Double.of_long [1; 2; 6; 7; 9])
           (mk_locals cma0 (mk_simple_moving_average cma0 cma0 0) Double.zero) 6%nat).
  - discriminate.
  - simpl; lia.
Defined.

(** ** Not-a-number samples *)

Lemma add_nan_r (x : double) : Double.add x S754_nan = S754_nan.
Proof. destruct x as [[|]|[|]| |s m e]; reflexivity. Qed.

Lemma add_nan_l (x : double) : Double.add S754_nan x = S754_nan.
Proof. reflexivity. Qed.

Lemma div_nan_l (y : double) : Double.div S754_nan y = S754_nan.
Proof. reflexivity. Qed.

Lemma fold_add_nan (xs : list double) :
  fold_left Double.add xs S754_nan = S754_nan.
Proof. induction xs as [|x xs IH]; [reflexivity|]. simpl. exact IH. Qed.

Lemma fold_add_in_nan (xs : list double) :
  forall acc : double, In S754_nan xs -> fold_left Double.add xs acc = S754_nan.
Proof.
  induction xs as [|x xs IH]; intros acc H; [contradiction|].
  simpl. destruct H as [->|H].
  - rewrite add_nan_r. apply fold_add_nan.
  - apply IH. exact H.
Qed.

Lemma mean_nan (xs : list double) : In S754_nan xs -> mean xs = S754_nan.
Proof.
  intros H. unfold mean, fsum. rewrite fold_add_in_nan by exact H. reflexivity.
Qed.

Lemma average_nan (xs : list double) :
  In S754_nan xs -> average (cma_run cma0 xs) = S754_nan.
Proof.
  intros H. destruct xs as [|x xs _] using rev_ind; [contradiction|].
  rewrite cma_run_snoc, average_cma_step, <- cma_run_snoc, total_cma_run.
  rewrite fold_add_in_nan by exact H. reflexivity.
Qed.

(** X9. A NaN sample stays in the cumulative average: in cumulative mode,
    once the stream has delivered a NaN, the final line is NaN, and with
    [-I] the line of that sample and every later line are NaN. *)
Theorem cma_nan_sticks (fn : option string) (pn : string) (sh W : Z)
  (xs ys : list double) (l : locals) (fuel : nat) :
  sh <> 0 ->
  (length (xs ++ S754_nan :: ys) < fuel)%nat ->
  run_mode (mk_runtime_flags fn pn CUMULATIVE_AVERAGE 0 W)
    (map Num (xs ++ S754_nan :: ys)) l fuel = Exit 0 [S754_nan] /\
  exists out : list double,
    run_mode (mk_runtime_flags fn pn CUMULATIVE_AVERAGE sh W)
      (map Num (xs ++ S754_nan :: ys)) l fuel = Exit 0 out /\
    length out = length (xs ++ S754_nan :: ys) /\
    forall k : nat,
      (length xs <= k < length (xs ++ S754_nan :: ys))%nat ->
      nth_error out k = Some S754_nan.
Proof.
  intros Hs Hf. unfold run_mode. cbn [runtime_mode show_intermediates Z.eqb negb].
  rewrite cma_reset_eq. cbn [snd]. split.
  - rewrite cma_loop_num by exact Hf. rewrite cma_eq. cbn [fst app].
    rewrite average_nan; [reflexivity|]. apply in_or_app. right. left. reflexivity.
  - destruct (Z.eqb_spec sh 0) as [|_]; [contradiction|]. cbn [negb].
    rewrite cma_loop_show_num by exact Hf. cbn [app].
    exists (cma_trace cma0 (xs ++ S754_nan :: ys)).
    split; [reflexivity|]. split; [apply length_cma_trace|].
    intros k Hk. rewrite nth_cma_trace by lia.
    rewrite average_nan; [reflexivity|].
    rewrite firstn_app. apply in_or_app. right.
    replace (S k - length xs)%nat with (S (k - length xs)) by lia.
    left. reflexivity.
Qed.

Lemma cma_nan_sticks_witness :
  let xs := map Double.of_long [1; 2] in
  let ys := map Double.of_long [3; 4] in
  let l := mk_locals cma0 (mk_simple_moving_average cma0 cma0 0) Double.zero in
  1 <> 0 /\
  (length (xs ++ S754_nan :: ys) < 6)%nat /\
  run_mode (mk_runtime_flags None "avg" CUMULATIVE_AVERAGE 0 10)
    (map Num (xs ++ S754_nan :: ys)) l 6 = Exit 0 [S754_nan] /\
  exists out : list double,
    run_mode (mk_runtime_flags None "avg" CUMULATIVE_AVERAGE 1 10)
      (map Num (xs ++ S754_nan :: ys)) l 6 = Exit 0 out /\
    length out = length (xs ++ S754_nan :: ys) /\
    forall k : nat,
      (length xs <= k < length (xs ++ S754_nan :: ys))%nat ->
      nth_error out k = Some S754_nan.
Proof.
  split; [discriminate|].
  split; [simpl; lia|].
  apply (cma_nan_sticks None "avg" 1 10 (map Double.of_long [1; 2])
           (map Double.of_long [3; 4])
           (mk_locals cma0 (mk_simple_moving_average cma0 cma0 0) Double.zero) 6%nat).
  - discriminate.
  - simpl; lia.
Defined.

(** X10. In the moving average a NaN sample counts once its window is
    complete: with window size [W > 0], if some completed window holds a
    NaN then [sma] and the final line of the mode are NaN, whatever the
    other windows hold. *)
Theorem sma_nan_sticks (fn : option string) (pn : string) (W : Z)
  (ws : list (list double)) (w tail : list double)
  (s : simple_moving_average_t) (l : locals) (fuel : nat) :
  0 < W <= Long.LONG_MAX ->
  Forall (fun w => Z.of_nat (length w) = W) ws ->
  Z.of_nat (length tail) < W ->
  In w ws ->
  In S754_nan w ->
  (length (concat ws ++ tail) < fuel)%nat ->
  fst (sma (sma_run (snd (sma_reset W s)) (concat ws ++ tail))) = S754_nan /\
  run_mode (mk_runtime_flags fn pn SIMPLE_MOVING_AVERAGE 0 W)
    (map Num (concat ws ++ tail)) l fuel = Exit 0 [S754_nan].
Proof.
  intros HW Hws Ht Hw Hn Hf.
  assert (A : average (cma_run cma0 (map mean ws)) = S754_nan).
  { apply average_nan. rewrite <- (mean_nan w Hn). apply in_map. exact Hw. }
  split.
  - rewrite sma_run_reset by assumption. rewrite sma_eq. exact A.
  - rewrite sma_final_output by exact Hf.
    rewrite sma_run_reset by assumption. rewrite sma_eq. cbn [fst simple_average].
    rewrite A. reflexivity.
Qed.

Lemma sma_nan_sticks_witness :
  let ws := [map Double.of_long [1; 2]; [Double.of_long 3; S754_nan];
             map Double.of_long [5; 6]] in
  let w := [Double.of_long 3; S754_nan] in
  let tail := map Double.of_long [7] in
  let s := mk_simple_moving_average cma0 cma0 0 in
  let l := mk_locals cma0 s Double.zero in
  0 < 2 <= Long.LONG_MAX /\
  Forall (fun w => Z.of_nat (length w) = 2) ws /\
  Z.of_nat (length tail) < 2 /\
  In w ws /\
  In S754_nan w /\
  (length (concat ws ++ tail) < 8)%nat /\
  fst (sma (sma_run (snd (sma_reset 2 s)) (concat ws ++ tail))) = S754_nan /\
  run_mode (mk_runtime_flags None "avg" SIMPLE_MOVING_AVERAGE 0 2)
    (map Num (concat ws ++ tail)) l 8 = Exit 0 [S754_nan].
Proof.
  assert (HW : 0 < 2 <= Long.LONG_MAX) by (split; vm_compute; congruence).
  assert (Hws : Forall (fun w => Z.of_nat (length w) = 2)
                  [map Double.of_long [1; 2]; [Double.of_long 3; S754_nan];
                   map Double.of_long [5; 6]])
    by (repeat constructor).
  assert (Hw : In [Double.of_long 3; S754_nan]
                 [map Double.of_long [1; 2]; [Double.of_long 3; S754_nan];
                  map Double.of_long [5; 6]])
    by (right; left; reflexivity).
  assert (Hn : In S754_nan [Double.of_long 3; S754_nan])
    by (right; left; reflexivity).
  split; [exact HW|].
  split; [exact Hws|].
  split; [reflexivity|].
  split; [exact Hw|].
  split; [exact Hn|].
  split; [simpl; lia|].
  apply (sma_nan_sticks None "avg" 2
           [map Double.of_long [1; 2]; [Double.of_long 3; S754_nan];
            map Double.of_long [5; 6]]
           [Double.of_long 3; S754_nan] (map Double.of_long [7])
           (mk_simple_moving_average cma0 cma0 0)
           (mk_locals cma0 (mk_simple_moving_average cma0 cma0 0) Double.zero) 8%nat).
  - exact HW.
  - exact Hws.
  - reflexivity.
  - exact Hw.
  - exact Hn.
  - simpl; lia.
Defined.

(** ** Window size one *)

Lemma mean_singleton (x : double) :
  Double.valid x = true -> x <> S754_zero true -> mean [x] = x.
Proof.
  intros Hv Hz. unfold mean, fsum. cbn [fold_left length].
  change (Z.of_nat 1) with 1. rewrite add_zero_l.
  destruct x as [[|]|sx| |sx mx ex]; try congruence; try reflexivity;
    apply div_one; exact Hv.
Qed.

Lemma concat_singletons (xs : list double) :
  concat (map (fun x => [x]) xs) = xs.
Proof. induction xs as [|x xs IH]; [reflexivity|]. simpl. now rewrite IH. Qed.

Lemma map_mean_singletons (xs : list double) :
  Forall (fun x => Double.valid x = true /\ x <> S754_zero true) xs ->
  map mean (map (fun x => [x]) xs) = xs.
Proof.
  induction 1 as [|x xs [Hv Hz] _ IH]; [reflexivity|].
  simpl map. rewrite IH, mean_singleton by assumption. reflexivity.
Qed.

(** X11. With window size 1 every sample is a window of its own, and the
    moving-average mode prints exactly what the cumulative-average mode
    prints on the same samples, with or without [-I] (the samples being
    well-formed doubles other than [-0.0]). *)
Theorem sma_window_one_is_cma (fn : option string) (pn : string) (sh W' : Z)
  (xs : list double) (l l' : locals) (fuel : nat) :
  Forall (fun x => Double.valid x = true /\ x <> S754_zero true) xs ->
  (length xs < fuel)%nat ->
  run_mode (mk_runtime_flags fn pn SIMPLE_MOVING_AVERAGE sh 1) (map Num xs) l fuel =
  run_mode (mk_runtime_flags fn pn CUMULATIVE_AVERAGE sh W') (map Num xs) l' fuel.
Proof.
  intros Hxs Hf.
  pose proof (sma_mode_on_windows fn pn sh 1 W' (map (fun x => [x]) xs) [] l l'
                fuel fuel) as E.
  rewrite app_nil_r, concat_singletons, map_mean_singletons in E by exact Hxs.
  apply E.
  - split; [reflexivity | vm_compute; discriminate].
  - clear. induction xs as [|x xs IH]; constructor; [reflexivity | exact IH].
  - reflexivity.
  - exact Hf.
  - rewrite length_map. exact Hf.
Qed.

Lemma sma_window_one_is_cma_witness :
  let xs := [Double.of_long 4; Double.dyadic 7 (-1); Double.of_long (-2)] in
  let l := mk_locals cma0 (mk_simple_moving_average cma0 cma0 0) Double.zero in
  Forall (fun x => Double.valid x = true /\ x <> S754_zero true) xs /\
  (length xs < 4)%nat /\
  run_mode (mk_runtime_flags None "avg" SIMPLE_MOVING_AVERAGE 1 1) (map Num xs) l 4 =
  run_mode (mk_runtime_flags None "avg" CUMULATIVE_AVERAGE 1 10) (map Num xs) l 4.
Proof.
  assert (Hxs : Forall (fun x => Double.valid x = true /\ x <> S754_zero true)
                  [Double.of_long 4; Double.dyadic 7 (-1); Double.of_long (-2)])
    by (repeat constructor; vm_compute; discriminate).
  split; [exact Hxs|].
  split; [simpl; lia|].
  apply (sma_window_one_is_cma None "avg" 1 10
           [Double.of_long 4; Double.dyadic 7 (-1); Double.of_long (-2)]
           (mk_locals cma0 (mk_simple_moving_average cma0 cma0 0) Double.zero)
           (mk_locals cma0 (mk_simple_moving_average cma0 cma0 0) Double.zero) 4%nat).
  - exact Hxs.
  - simpl; lia.
Defined.

(** ** When [main] ends *)





(** ** What a malformed token makes the loops do *)







(** ** No completed window *)

Lemma sma_drive_no_window (f : runtime_flags_t) (a : cumulative_average_t)
  (out : list double) (xs : list double) :
  window_size f <= 0 \/ Z.of_nat (length xs) < window_size f ->
  Z.of_nat (length xs) <= Long.LONG_MAX ->
  sma_drive f (0, mk_simple_moving_average cma0 a (window_size f), out) xs =
  (Z.of_nat (length xs),
   mk_simple_moving_average (cma_run cma0 xs) a (window_size f), out).
Proof.
  induction xs as [|x xs IH] using rev_ind; intros HW Hn; [reflexivity|].
  rewrite length_app in HW, Hn. simpl in HW, Hn.
  rewrite sma_drive_snoc, IH by lia. rewrite sma_body_eq.
  rewrite incr_in_range by (pose proof LONG_MIN_neg; lia).
  destruct (Z.eqb_spec (Z.of_nat (length xs) + 1) (window_size f)); [lia|].
  cbn [andb].
  rewrite sma_step_incomplete; cbn [current_window simple_average window];
    rewrite <- cma_run_snoc.
  - rewrite length_app. simpl length. rewrite Nat2Z.inj_add. reflexivity.
  - rewrite count_cma_run; rewrite ?length_app; simpl; lia.
Qed.

(** X14. When no window can complete, because the window size is zero or
    negative or because there are fewer samples than the window holds, the
    moving-average mode prints the single line [0.0] without [-I] and
    nothing at all with [-I]; it exits with status 0 (the number of samples
    within the range of [long]). *)
Theorem sma_without_full_window (fn : option string) (pn : string) (sh W : Z)
  (xs : list double) (l : locals) (fuel : nat) :
  W <= 0 \/ Z.of_nat (length xs) < W ->
  Z.of_nat (length xs) <= Long.LONG_MAX ->
  sh <> 0 ->
  (length xs < fuel)%nat ->
  run_mode (mk_runtime_flags fn pn SIMPLE_MOVING_AVERAGE 0 W) (map Num xs) l fuel =
    Exit 0 [Double.zero] /\
  run_mode (mk_runtime_flags fn pn SIMPLE_MOVING_AVERAGE sh W) (map Num xs) l fuel =
    Exit 0 [].
Proof.
  intros HW Hn Hs Hf. unfold run_mode.
  cbn [runtime_mode show_intermediates window_size].
  rewrite !sma_loop_num by exact Hf. rewrite sma_reset_eq. cbn [snd].
  rewrite (sma_drive_no_window (mk_runtime_flags fn pn SIMPLE_MOVING_AVERAGE 0 W))
    by assumption.
  rewrite (sma_drive_no_window (mk_runtime_flags fn pn SIMPLE_MOVING_AVERAGE sh W))
    by assumption.
  cbn [fst snd Z.eqb negb].
  destruct (Z.eqb_spec sh 0) as [|_]; [contradiction|]. cbn [negb].
  split; reflexivity.
Qed.

Lemma sma_without_full_window_witness :
  let xs := map Double.of_long [1; 2; 3] in
  let l := mk_locals cma0 (mk_simple_moving_average cma0 cma0 0) Double.zero in
  (4 <= 0 \/ Z.of_nat (length xs) < 4) /\
  Z.of_nat (length xs) <= Long.LONG_MAX /\
  1 <> 0 /\
  (length xs < 4)%nat /\
  run_mode (mk_runtime_flags None "avg" SIMPLE_MOVING_AVERAGE 0 4) (map Num xs) l 4 =
    Exit 0 [Double.zero] /\
  run_mode (mk_runtime_flags None "avg" SIMPLE_MOVING_AVERAGE 1 4) (map Num xs) l 4 =
    Exit 0 [].
Proof.
  split; [right; reflexivity|].
  split; [vm_compute; discriminate|].
  split; [discriminate|].
  split; [simpl; lia|].
  apply (sma_without_full_window None "avg" 1 4 (map Double.of_long [1; 2; 3])
           (mk_locals cma0 (mk_simple_moving_average cma0 cma0 0) Double.zero) 4%nat).
  - right; reflexivity.
  - vm_compute; discriminate.
  - discriminate.
  - simpl; lia.
Defined.
